(** * Movie-Hub: the data-fetching hooks of [frontend/src/hooks/useMovies.js]

    A shallow embedding of the memoizing GET wrapper [cachedApi] and of the
    hooks [useMovies], [useMovie], [useSeriesDetails], [useSearchSuggestions],
    [useStats] and [useSeries], followed by the properties of the
    specification that concern them.

    Conventions of the embedding.
    - JavaScript values are the trees of [JsVal].  Numbers are modelled by
      their integer values; a string is the sequence of the UTF-8 bytes of
      the JavaScript string, which is what the percent-encoders work on, and
      [utf16_length] gives the [length] JavaScript sees (UTF-16 code units).
    - A block of synchronous JavaScript is a function from a state to a
      completion (normal, or an exception thrown) and a state: the monad
      [Js].  [try]/[catch]/[finally] are combinators of that monad.
    - An [async] function is cut at its [await]: the part that runs when the
      function is called, up to the network call, and the part that runs when
      the awaited promise settles with an [Outcome].
    - React state ([useState]) and refs ([useRef]) of one hook instance are
      the fields of a record; the host (timers, requests in flight, abort
      controllers, the clock and the module-level [cache]) is the record
      [Host]. *)

From Stdlib Require Import Ascii.
From stdpp Require Import gmap strings list pretty.

Set Warnings "-register-all".
Local Open Scope string_scope.

(** ** JavaScript values *)

Inductive JsVal : Type :=
| JUndefined
| JNull
| JBool (b : bool)
| JNum (n : Z)
| JStr (s : string)
| JArr (elems : list JsVal)
| JObj (props : list (string * JsVal)).

(** The abstract operation ToString, as applied by [URLSearchParams.append]
    and by template literals. *)
Fixpoint ToString (v : JsVal) : string :=
  match v with
  | JUndefined => "undefined"
  | JNull => "null"
  | JBool b => if b then "true" else "false"
  | JNum n => pretty n
  | JStr s => s
  | JArr elems =>
      String.concat ","
        (map (fun e => match e with JUndefined | JNull => "" | _ => ToString e end) elems)
  | JObj _ => "[object Object]"
  end.

(** [s.length]: the number of UTF-16 code units of the string whose UTF-8
    bytes are [s].  A sequence of one, two or three bytes is one code unit,
    a sequence of four bytes (lead byte 0xF0 or more) is a surrogate pair. *)
Fixpoint utf16_length (s : string) : nat :=
  match s with
  | EmptyString => 0
  | String c rest =>
      let n := nat_of_ascii c in
      if (240 <=? n)%nat then
        match rest with
        | String _ (String _ (String _ rest')) => 2 + utf16_length rest'
        | _ => 1
        end
      else if (224 <=? n)%nat then
        match rest with
        | String _ (String _ rest') => 1 + utf16_length rest'
        | _ => 1
        end
      else if (192 <=? n)%nat then
        match rest with
        | String _ rest' => 1 + utf16_length rest'
        | _ => 1
        end
      else 1 + utf16_length rest
  end.

(** Truthiness, as tested by [||], [!] and [if]. *)
Definition ToBoolean (v : JsVal) : bool :=
  match v with
  | JUndefined | JNull => false
  | JBool b => b
  | JNum n => negb (n =? 0)%Z
  | JStr s => negb (String.eqb s "")
  | JArr _ | JObj _ => true
  end.

(** [a || b] *)
Definition js_or (a b : JsVal) : JsVal := if ToBoolean a then a else b.

(** [v !== undefined && v !== null && v !== ''] *)
Definition non_empty (v : JsVal) : bool :=
  match v with
  | JUndefined | JNull => false
  | JStr s => negb (String.eqb s "")
  | _ => true
  end.

(** [v === s] for a string literal [s] *)
Definition strict_eq_str (v : JsVal) (s : string) : bool :=
  match v with
  | JStr s' => String.eqb s' s
  | _ => false
  end.

Fixpoint own_property (props : list (string * JsVal)) (k : string) : option JsVal :=
  match props with
  | [] => None
  | (k', v) :: rest => if String.eqb k' k then Some v else own_property rest k
  end.

(** Error objects carry the two properties the hooks read. *)
Definition mkError (name message : string) : JsVal :=
  JObj [("name", JStr name); ("message", JStr message)].

Definition TypeError (message : string) : JsVal := mkError "TypeError" message.
Definition RangeError (message : string) : JsVal := mkError "RangeError" message.
Definition ReferenceError (x : string) : JsVal :=
  mkError "ReferenceError" (x ++ " is not defined").

(** ** Completions and the monad of synchronous code *)

Inductive Completion (A : Type) : Type :=
| Normal (a : A)
| Throw (exn : JsVal).
Arguments Normal {A} a.
Arguments Throw {A} exn.

Definition Js (S A : Type) : Type := S -> Completion A * S.

Definition ret {S A} (a : A) : Js S A := fun s => (Normal a, s).
Definition throw {S A} (e : JsVal) : Js S A := fun s => (Throw e, s).
Definition bind {S A B} (m : Js S A) (k : A -> Js S B) : Js S B :=
  fun s => match m s with
           | (Normal a, s') => k a s'
           | (Throw e, s') => (Throw e, s')
           end.
Definition lift {S A} (c : Completion A) : Js S A := fun s => (c, s).
Definition modify {S} (f : S -> S) : Js S unit := fun s => (Normal tt, f s).

#[global] Instance Js_ret {S} : MRet (Js S) := fun A a => ret a.
#[global] Instance Js_bind {S} : MBind (Js S) := fun A B k m => bind m k.

(** [try { body } catch (err) { handler err }] *)
Definition try_catch {S A} (body : Js S A) (handler : JsVal -> Js S A) : Js S A :=
  fun s => match body s with
           | (Normal a, s') => (Normal a, s')
           | (Throw e, s') => handler e s'
           end.

(** [try { body } finally { fin }]: [fin] always runs; the completion of
    [body] is kept unless [fin] itself throws. *)
Definition try_finally {S A} (body : Js S A) (fin : Js S unit) : Js S A :=
  fun s => match body s with
           | (c, s') => match fin s' with
                        | (Normal _, s'') => (c, s'')
                        | (Throw e, s'') => (Throw e, s'')
                        end
           end.

(** Property read [v.k]: a TypeError on [undefined] and [null]. *)
Definition Get (v : JsVal) (k : string) : Completion JsVal :=
  match v with
  | JUndefined | JNull =>
      Throw (TypeError ("Cannot read properties of " ++ ToString v
                          ++ " (reading '" ++ k ++ "')"))
  | JObj props => Normal (default JUndefined (own_property props k))
  | JArr elems =>
      Normal (if String.eqb k "length" then JNum (Z.of_nat (length elems)) else JUndefined)
  | JStr s =>
      Normal (if String.eqb k "length" then JNum (Z.of_nat (utf16_length s)) else JUndefined)
  | JBool _ | JNum _ => Normal JUndefined
  end.

(** Optional chaining [v?.k] *)
Definition GetOpt (v : JsVal) (k : string) : Completion JsVal :=
  match v with
  | JUndefined | JNull => Normal JUndefined
  | _ => Get v k
  end.

(** [err.response?.data?.message || fallback] *)
Definition error_message {S} (err : JsVal) (fallback : string) : Js S JsVal :=
  r ← lift (Get err "response");
  d ← lift (GetOpt r "data");
  m ← lift (GetOpt d "message");
  ret (js_or m (JStr fallback)).

(** How the awaited network promise settles. *)
Inductive Outcome : Type :=
| Resolved (response : JsVal)
| Rejected (err : JsVal).

(** The client is axios (lines 2 and 6).  When the signal given to a call
    is aborted, axios rejects the call with a CanceledError. *)
Definition CanceledError : JsVal :=
  JObj [("name", JStr "CanceledError"); ("message", JStr "canceled");
        ("code", JStr "ERR_CANCELED")].

Definition await {S} (o : Outcome) : Js S JsVal :=
  match o with
  | Resolved v => ret v
  | Rejected e => throw e
  end.

(** ** Lexical scopes

    A scope is the list of the identifiers it declares; a reference to an
    identifier that no scope of the chain declares throws a ReferenceError. *)

Definition Scope : Type := list string.

Definition declared (chain : list Scope) (x : string) : bool :=
  existsb (fun sc => existsb (String.eqb x) sc) chain.

Definition reference {S} (chain : list Scope) (x : string) : Js S unit :=
  if declared chain x then ret tt else throw (ReferenceError x).

(** The globals the file uses.  The host is assumed to define no global
    named [params] or [fetchStats]. *)
Definition global_scope : Scope :=
  ["console"; "Date"; "JSON"; "Map"; "Object"; "URLSearchParams"; "AbortController";
   "performance"; "setTimeout"; "clearTimeout"; "encodeURIComponent"; "undefined"].

(** Imports and top-level declarations of the module. *)
Definition module_scope : Scope :=
  ["useState"; "useEffect"; "useCallback"; "useRef"; "axios"; "API_URL"; "api"; "cache";
   "cachedApi"; "useMovies"; "useMovie"; "useRelatedMovies"; "useSearchSuggestions";
   "useCategories"; "useStats"; "useSeries"; "useSeriesDetails"; "incrementDownloadCount";
   "createMovie"; "updateMovie"; "deleteMovie"; "toggleMovieStatus"].

(** ** Percent-encoding and URLSearchParams *)

Definition hex_digit (n : nat) : ascii :=
  default "0"%char (String.list_ascii_of_string "0123456789ABCDEF" !! n).

Definition percent (c : ascii) : string :=
  let n := nat_of_ascii c in
  String "%" (String (hex_digit (n / 16)) (String (hex_digit (n mod 16)) EmptyString)).

Definition is_alnum (c : ascii) : bool :=
  let n := nat_of_ascii c in
  ((48 <=? n)%nat && (n <=? 57)%nat) || ((65 <=? n)%nat && (n <=? 90)%nat)
  || ((97 <=? n)%nat && (n <=? 122)%nat).

Definition one_of (chars : string) (c : ascii) : bool :=
  existsb (Ascii.eqb c) (String.list_ascii_of_string chars).

Fixpoint encode_with (enc : ascii -> string) (s : string) : string :=
  match s with
  | EmptyString => EmptyString
  | String c rest => enc c ++ encode_with enc rest
  end.

(** The application/x-www-form-urlencoded byte serializer. *)
Definition urlencoded_char (c : ascii) : string :=
  if Ascii.eqb c " " then "+"
  else if is_alnum c || one_of "*-._" c then String c EmptyString
  else percent c.
Definition urlencoded : string -> string := encode_with urlencoded_char.

Definition encodeURIComponent_char (c : ascii) : string :=
  if is_alnum c || one_of "-_.!~*'()" c then String c EmptyString else percent c.
Definition encodeURIComponent : string -> string := encode_with encodeURIComponent_char.

Module URLSearchParams.

Abbreviation t := (list (string * string)).

(** [new URLSearchParams()] *)
Definition new : t := [].

(** [params.append(name, value)]: the value is converted with ToString and
    the pair is added after the existing ones, whatever their names. *)
Definition append (params : t) (name : string) (value : JsVal) : t :=
  (params ++ [(name, ToString value)])%list.

(** [params.getAll(name)] *)
Definition getAll (params : t) (name : string) : list string :=
  map snd (filter (fun p => fst p = name) params).

(** [params.has(name)] *)
Definition has (params : t) (name : string) : bool :=
  existsb (fun p => String.eqb (fst p) name) params.

(** [params.toString()] *)
Definition toString (params : t) : string :=
  String.concat "&" (map (fun p => urlencoded (fst p) ++ "=" ++ urlencoded (snd p)) params).

End URLSearchParams.

(** ** Filter objects

    A filter object is given by its entries in the order of
    [Object.entries]; an object has each key once ([NoDup] of the keys). *)

Abbreviation Filters := (list (string * JsVal)).

Definition keys (filters : Filters) : list string := map fst filters.

(** [filters.k] *)
Definition prop (filters : Filters) (k : string) : JsVal :=
  default JUndefined (own_property filters k).

(** The loop shared by [fetchMovies] and [fetchSeries]:
    [Object.entries(filters).forEach(([key, value]) => { if (...) params.append(key, value) })] *)
Definition append_filters (filters : Filters) (params : URLSearchParams.t) : URLSearchParams.t :=
  fold_left (fun acc kv => if non_empty (snd kv)
                           then URLSearchParams.append acc (fst kv) (snd kv)
                           else acc)
            filters params.

(** ** The host *)

Record CacheEntry : Type := { data : JsVal; timestamp : Z }.

(** The request configuration passed to [api.get]; the hooks set no field
    other than [signal] (the id of the AbortController it belongs to). *)
Record Options : Type := { signal : option nat }.

Record Request : Type :=
  { rid : nat;                    (* position in the order of issuance *)
    url : string;
    req_signal : option nat;
    cache_key : option string }.  (* set when the call goes through [cachedApi] *)

(** The closures of this file that are passed to [setTimeout]. *)
Inductive Callback : Type :=
| CbFetchMovies (filters : Filters)         (* [() => fetchMovies(false)] *)
| CbFetchSuggestions (query : option string). (* [fetchSuggestions] *)

Record Timer : Type := { tid : nat; due : Z; callback : Callback }.

Record Host : Type :=
  { now : Z;                          (* Date.now(), in ms *)
    cache : gmap string CacheEntry;   (* [const cache = new Map()] *)
    issued : nat;                     (* network calls made so far *)
    network : list Request;           (* calls in flight, oldest first *)
    controllers : nat;                (* AbortControllers created so far *)
    aborted : list nat;               (* controllers whose abort() was called *)
    timer_ids : nat;                  (* timers created so far *)
    timers : list Timer }.            (* pending timers *)

Definition fresh_host : Host :=
  {| now := 0; cache := ∅; issued := 0; network := []; controllers := 0;
     aborted := []; timer_ids := 0; timers := [] |}.

Definition set_cache (c : gmap string CacheEntry) (h : Host) : Host :=
  {| now := now h; cache := c; issued := issued h; network := network h;
     controllers := controllers h; aborted := aborted h;
     timer_ids := timer_ids h; timers := timers h |}.

Definition set_network (n : nat) (l : list Request) (h : Host) : Host :=
  {| now := now h; cache := cache h; issued := n; network := l;
     controllers := controllers h; aborted := aborted h;
     timer_ids := timer_ids h; timers := timers h |}.

Definition set_timers (n : nat) (l : list Timer) (h : Host) : Host :=
  {| now := now h; cache := cache h; issued := issued h; network := network h;
     controllers := controllers h; aborted := aborted h;
     timer_ids := n; timers := l |}.

(** time passes *)
Definition elapse (ms : Z) (h : Host) : Host :=
  {| now := (now h + ms)%Z; cache := cache h; issued := issued h; network := network h;
     controllers := controllers h; aborted := aborted h;
     timer_ids := timer_ids h; timers := timers h |}.

(** [new AbortController()] *)
Definition new_controller (h : Host) : nat * Host :=
  (controllers h,
   {| now := now h; cache := cache h; issued := issued h; network := network h;
      controllers := S (controllers h); aborted := aborted h;
      timer_ids := timer_ids h; timers := timers h |}).

(** [controller.abort()] *)
Definition abort (c : nat) (h : Host) : Host :=
  {| now := now h; cache := cache h; issued := issued h; network := network h;
     controllers := controllers h; aborted := c :: aborted h;
     timer_ids := timer_ids h; timers := timers h |}.

(** [setTimeout(cb, delay)].  A ref that holds a timer id is an [option]:
    the ids of the host are truthy, whatever their number here. *)
Definition setTimeout (cb : Callback) (delay : Z) (h : Host) : nat * Host :=
  (timer_ids h,
   set_timers (S (timer_ids h))
              (timers h ++ [{| tid := timer_ids h; due := (now h + delay)%Z; callback := cb |}])
              h).

(** [clearTimeout(id)] *)
Definition clearTimeout (id : nat) (h : Host) : Host :=
  set_timers (timer_ids h) (filter (fun t => tid t ≠ id) (timers h)) h.

(** [api.get(url, options)]: the call goes out and stays in flight until it
    settles. *)
Definition api_get (u : string) (o : Options) (key : option string) (h : Host) : Host :=
  set_network (S (issued h))
              (network h ++ [{| rid := issued h; url := u; req_signal := signal o;
                                cache_key := key |}])
              h.

Definition find_request (id : nat) (h : Host) : option Request :=
  List.find (fun r => Nat.eqb (rid r) id) (network h).

Definition remove_request (id : nat) (h : Host) : Host :=
  set_network (issued h) (filter (fun r => rid r ≠ id) (network h)) h.

(** The calls in flight that have not been aborted. *)
Definition is_aborted (h : Host) (r : Request) : bool :=
  match req_signal r with
  | Some c => existsb (Nat.eqb c) (aborted h)
  | None => false
  end.

Definition live (h : Host) : list Request :=
  filter (fun r => is_aborted h r = false) (network h).

(** Request ids are handed out in order: those in flight are below
    [issued]. *)
Definition host_wf (h : Host) : Prop :=
  Forall (fun r => rid r < issued h) (network h).

(** One hook instance in its host. *)
Record World (St : Type) : Type := { hook : St; host : Host }.
Arguments hook {St} w.
Arguments host {St} w.
Arguments Build_World {St} hook host.

Definition on_hook {St} (f : St -> St) (w : World St) : World St :=
  {| hook := f (hook w); host := host w |}.
Definition on_host {St} (f : Host -> Host) (w : World St) : World St :=
  {| hook := hook w; host := f (host w) |}.

(** ** [cachedApi] *)

Module cachedApi.

Definition dquote : string := String (ascii_of_nat 34) EmptyString.

(** [JSON.stringify(options)]: an AbortSignal has no enumerable property of
    its own and is written as an empty object. *)
Definition JSON_stringify (o : Options) : string :=
  match signal o with
  | None => "{}"
  | Some _ => "{" ++ dquote ++ "signal" ++ dquote ++ ":{}}"
  end.

Definition cacheKey (u : string) (o : Options) : string :=
  u ++ "?" ++ JSON_stringify o.

(** The check at the head of [get]: the cached [data], when the entry is
    younger than five minutes. *)
Definition cached (h : Host) (key : string) : option JsVal :=
  match cache h !! key with
  | Some e => if bool_decide (now h - timestamp e < 300000)%Z then Some (data e) else None
  | None => None
  end.

(** [get(url, options)] up to its [await]: either the value it returns at
    once, or the host with the network call in flight. *)
Definition get (u : string) (o : Options) (h : Host) : option JsVal * Host :=
  let cacheKey := cacheKey u o in
  match cached h cacheKey with
  | Some data => (Some data, h)
  | None => (None, api_get u o (Some cacheKey) h)
  end.

(** [get] from its [await] on: what it returns or throws when the network
    call settles. *)
Definition get_settled (cacheKey : string) (o : Outcome) : Js Host JsVal :=
  response ← await o;
  d ← lift (Get response "data");
  _ ← modify (fun h => set_cache (<[cacheKey := {| data := d; timestamp := now h |}]> (cache h)) h);
  ret response.

End cachedApi.

(** ** [useMovies] *)

Module useMovies.

Record State : Type :=
  { movies : JsVal;
    loading : bool;
    error : JsVal;
    pagination : JsVal;
    isDataLoaded : bool;
    fetchTimeoutRef : option nat;       (* [fetchTimeoutRef.current] *)
    abortControllerRef : option nat;    (* [abortControllerRef.current] *)
    isInitialLoadRef : bool }.

(** The state of a fresh instance: the initial values of [useState] and
    [useRef]. *)
Definition initial : State :=
  {| movies := JArr []; loading := true; error := JNull; pagination := JNull;
     isDataLoaded := false; fetchTimeoutRef := None; abortControllerRef := None;
     isInitialLoadRef := true |}.

Definition setMovies (v : JsVal) (s : State) : State :=
  {| movies := v; loading := loading s; error := error s; pagination := pagination s;
     isDataLoaded := isDataLoaded s; fetchTimeoutRef := fetchTimeoutRef s;
     abortControllerRef := abortControllerRef s; isInitialLoadRef := isInitialLoadRef s |}.
Definition setLoading (b : bool) (s : State) : State :=
  {| movies := movies s; loading := b; error := error s; pagination := pagination s;
     isDataLoaded := isDataLoaded s; fetchTimeoutRef := fetchTimeoutRef s;
     abortControllerRef := abortControllerRef s; isInitialLoadRef := isInitialLoadRef s |}.
Definition setError (v : JsVal) (s : State) : State :=
  {| movies := movies s; loading := loading s; error := v; pagination := pagination s;
     isDataLoaded := isDataLoaded s; fetchTimeoutRef := fetchTimeoutRef s;
     abortControllerRef := abortControllerRef s; isInitialLoadRef := isInitialLoadRef s |}.
Definition setPagination (v : JsVal) (s : State) : State :=
  {| movies := movies s; loading := loading s; error := error s; pagination := v;
     isDataLoaded := isDataLoaded s; fetchTimeoutRef := fetchTimeoutRef s;
     abortControllerRef := abortControllerRef s; isInitialLoadRef := isInitialLoadRef s |}.
Definition setIsDataLoaded (b : bool) (s : State) : State :=
  {| movies := movies s; loading := loading s; error := error s; pagination := pagination s;
     isDataLoaded := b; fetchTimeoutRef := fetchTimeoutRef s;
     abortControllerRef := abortControllerRef s; isInitialLoadRef := isInitialLoadRef s |}.
Definition set_fetchTimeoutRef (r : option nat) (s : State) : State :=
  {| movies := movies s; loading := loading s; error := error s; pagination := pagination s;
     isDataLoaded := isDataLoaded s; fetchTimeoutRef := r;
     abortControllerRef := abortControllerRef s; isInitialLoadRef := isInitialLoadRef s |}.
Definition set_abortControllerRef (r : option nat) (s : State) : State :=
  {| movies := movies s; loading := loading s; error := error s; pagination := pagination s;
     isDataLoaded := isDataLoaded s; fetchTimeoutRef := fetchTimeoutRef s;
     abortControllerRef := r; isInitialLoadRef := isInitialLoadRef s |}.
Definition set_isInitialLoadRef (b : bool) (s : State) : State :=
  {| movies := movies s; loading := loading s; error := error s; pagination := pagination s;
     isDataLoaded := isDataLoaded s; fetchTimeoutRef := fetchTimeoutRef s;
     abortControllerRef := abortControllerRef s; isInitialLoadRef := b |}.

(** Lines 66-76: the query parameters of the request. *)
Definition params (filters : Filters) : URLSearchParams.t :=
  let params := append_filters filters URLSearchParams.new in
  URLSearchParams.append params "limit" (js_or (prop filters "limit") (JNum 12)).

Definition request_url (filters : Filters) : string :=
  "/movies?" ++ URLSearchParams.toString (params filters).

(** [fetchMovies] from its [await] on (lines 79-104), given how
    [cachedApi.get] completed. *)
Definition fetchMovies_settled (got : Completion JsVal) : Js State unit :=
  try_finally
    (try_catch
       (response ← lift got;
        d ← lift (Get response "data");
        ms ← lift (Get d "movies");
        _ ← modify (setMovies ms);
        d ← lift (Get response "data");
        total ← lift (Get d "total");
        d ← lift (Get response "data");
        page ← lift (Get d "page");
        d ← lift (Get response "data");
        pages ← lift (Get d "pages");
        _ ← modify (setPagination (JObj [("total", total); ("page", page); ("pages", pages)]));
        _ ← modify (setError JNull);
        modify (setIsDataLoaded true))
       (fun err =>
          name ← lift (Get err "name");
          if strict_eq_str name "AbortError"
          then ret tt
          else (message ← error_message err "Failed to fetch movies";
                modify (setError message))))
    (_ ← modify (setLoading false);
     modify (set_abortControllerRef None)).

(** [fetchMovies(isInitial)] of the render with [filters], up to its
    [await] (lines 54-81).  When [cachedApi.get] answers from the cache the
    rest of the function runs before any other event. *)
Definition fetchMovies (filters : Filters) (isInitial : bool) (w : World State) : World State :=
  let w := match abortControllerRef (hook w) with
           | Some c => on_host (abort c) w
           | None => w
           end in
  let (c, h) := new_controller (host w) in
  let st := set_abortControllerRef (Some c) (hook w) in
  let st := if isInitial then setLoading true st else st in
  match cachedApi.get (request_url filters) {| signal := Some c |} h with
  | (Some data, h) => {| hook := snd (fetchMovies_settled (Normal data) st); host := h |}
  | (None, h) => {| hook := st; host := h |}
  end.

(** The body of the effect (lines 110-119). *)
Definition effect (filters : Filters) (w : World State) : World State :=
  if isInitialLoadRef (hook w)
  then on_hook (set_isInitialLoadRef false) (fetchMovies filters true w)
  else
    let w := match fetchTimeoutRef (hook w) with
             | Some t => on_host (clearTimeout t) w
             | None => w
             end in
    let (t, h) := setTimeout (CbFetchMovies filters) 150 (host w) in
    {| hook := set_fetchTimeoutRef (Some t) (hook w); host := h |}.

(** The cleanup the effect returns (lines 121-128). *)
Definition cleanup (w : World State) : World State :=
  let w := match fetchTimeoutRef (hook w) with
           | Some t => on_host (clearTimeout t) w
           | None => w
           end in
  match abortControllerRef (hook w) with
  | Some c => on_host (abort c) w
  | None => w
  end.

(** The network call [id] settles: [cachedApi.get] finishes, then
    [fetchMovies]. *)
Definition settle (id : nat) (o : Outcome) (w : World State) : World State :=
  match find_request id (host w) with
  | Some r =>
      let (got, h) := cachedApi.get_settled (default "" (cache_key r)) o
                        (remove_request id (host w)) in
      {| hook := snd (fetchMovies_settled got (hook w)); host := h |}
  | None => w
  end.

(** A pending timer comes due and its callback runs. *)
Definition timeout (id : nat) (w : World State) : World State :=
  match List.find (fun t => Nat.eqb (tid t) id) (timers (host w)) with
  | Some t =>
      if bool_decide (due t ≤ now (host w))%Z
      then
        let w := on_host (clearTimeout id) w in
        match callback t with
        | CbFetchMovies filters => fetchMovies filters false w
        | CbFetchSuggestions _ => w
        end
      else w
  | None => w
  end.

(** What can happen to a mounted instance. *)
Inductive Event : Type :=
| Effect (filters : Filters)     (* a render with new filters: the effect runs *)
| Cleanup                        (* the cleanup of the previous effect runs *)
| Timeout (id : nat)             (* a timer comes due *)
| Refetch (filters : Filters)    (* [refetch()] of the render with [filters] *)
| Settle (id : nat) (o : Outcome) (* a network call settles *)
| Elapse (ms : Z).               (* time passes *)

Definition step (w : World State) (e : Event) : World State :=
  match e with
  | Effect filters => effect filters w
  | Cleanup => cleanup w
  | Timeout id => timeout id w
  | Refetch filters => fetchMovies filters false w
  | Settle id o => settle id o w
  | Elapse ms => on_host (elapse ms) w
  end.

Definition run (w : World State) (events : list Event) : World State :=
  fold_left step events w.

(** Mounting [useMovies(filters)] in a host. *)
Definition mount (filters : Filters) (h : Host) : World State :=
  effect filters {| hook := initial; host := h |}.

End useMovies.

(** ** [useMovie] *)

Module useMovie.

Record State : Type := { movie : JsVal; loading : bool; error : JsVal }.

Definition initial : State := {| movie := JNull; loading := true; error := JNull |}.

Definition setMovie (v : JsVal) (s : State) : State :=
  {| movie := v; loading := loading s; error := error s |}.
Definition setLoading (b : bool) (s : State) : State :=
  {| movie := movie s; loading := b; error := error s |}.
Definition setError (v : JsVal) (s : State) : State :=
  {| movie := movie s; loading := loading s; error := v |}.

(** Declarations of the hook's body, of the effect callback, and of the
    [catch] clause of [fetchMovie]; [response] is local to the [try] block. *)
Definition hook_scope : Scope :=
  ["id"; "movie"; "setMovie"; "loading"; "setLoading"; "error"; "setError"].
Definition effect_scope : Scope := ["fetchMovie"].
Definition catch_scope : Scope := ["err"].

Definition catch_chain : list Scope :=
  [catch_scope; effect_scope; hook_scope; module_scope; global_scope].

Definition request_url (id : JsVal) : string := "/movies/" ++ ToString id.

(** [fetchMovie] up to its [await] (lines 142-143). *)
Definition fetchMovie (id : JsVal) (w : World State) : World State :=
  {| hook := setLoading true (hook w);
     host := api_get (request_url id) {| signal := None |} None (host w) |}.

(** [fetchMovie] from its [await] on (lines 143-153).  The completion is
    that of the promise [fetchMovie()] returns, which the effect drops. *)
Definition fetchMovie_settled (o : Outcome) : Js State unit :=
  try_finally
    (try_catch
       (response ← await o;
        d ← lift (Get response "data");
        _ ← modify (setMovie d);
        modify (setError JNull))
       (fun err =>
          (* console.error('Failed to fetch movies:', err) *)
          (* console.error('Error response:', err.response) *)
          _ ← lift (Get err "response");
          (* console.error('Request URL:', `${API_URL}/movies?${params.toString()}`) *)
          _ ← reference catch_chain "API_URL";
          _ ← reference catch_chain "params";
          message ← error_message err "Failed to fetch movies";
          modify (setError message)))
    (modify (setLoading false)).

(** The effect (lines 156-158). *)
Definition effect (id : JsVal) (w : World State) : World State :=
  if ToBoolean id then fetchMovie id w else w.

End useMovie.

(** ** [useSeriesDetails] *)

Module useSeriesDetails.

Record State : Type := { series : JsVal; loading : bool; error : JsVal }.

Definition initial : State := {| series := JNull; loading := true; error := JNull |}.

Definition setSeries (v : JsVal) (s : State) : State :=
  {| series := v; loading := loading s; error := error s |}.
Definition setLoading (b : bool) (s : State) : State :=
  {| series := series s; loading := b; error := error s |}.
Definition setError (v : JsVal) (s : State) : State :=
  {| series := series s; loading := loading s; error := v |}.

Definition hook_scope : Scope :=
  ["id"; "series"; "setSeries"; "loading"; "setLoading"; "error"; "setError"].
Definition effect_scope : Scope := ["fetchSeries"].
Definition catch_scope : Scope := ["err"].

Definition catch_chain : list Scope :=
  [catch_scope; effect_scope; hook_scope; module_scope; global_scope].

(** [fetchSeries] from its [await] on (lines 326-336). *)
Definition fetchSeries_settled (o : Outcome) : Js State unit :=
  try_finally
    (try_catch
       (response ← await o;
        d ← lift (Get response "data");
        _ ← modify (setSeries d);
        modify (setError JNull))
       (fun err =>
          _ ← lift (Get err "response");
          (* console.error('Request URL:', `${API_URL}/movies/${id}`) *)
          _ ← reference catch_chain "API_URL";
          _ ← reference catch_chain "id";
          message ← error_message err "Failed to fetch series details";
          modify (setError message)))
    (modify (setLoading false)).

Definition request_url (id : JsVal) : string := "/movies/" ++ ToString id.

(** [fetchSeries] up to its [await] (lines 325-326). *)
Definition fetchSeries (id : JsVal) (w : World State) : World State :=
  {| hook := setLoading true (hook w);
     host := api_get (request_url id) {| signal := None |} None (host w) |}.

(** The effect (lines 339-341). *)
Definition effect (id : JsVal) (w : World State) : World State :=
  if ToBoolean id then fetchSeries id w else w.

End useSeriesDetails.

(** ** [useSearchSuggestions] *)

Module useSearchSuggestions.

Record State : Type := { suggestions : JsVal; loading : bool }.

Definition initial : State := {| suggestions := JArr []; loading := false |}.

Definition setSuggestions (v : JsVal) (s : State) : State :=
  {| suggestions := v; loading := loading s |}.
Definition setLoading (b : bool) (s : State) : State :=
  {| suggestions := suggestions s; loading := b |}.

(** [!query || query.length < 2], for a query that is a string or missing
    ([None]: undefined or null). *)
Definition too_short (query : option string) : bool :=
  match query with
  | None => true
  | Some s => String.eqb s "" || (utf16_length s <? 2)%nat
  end.

Definition request_url (query : option string) : string :=
  "/movies/search-suggestions?q=" ++ encodeURIComponent (default "undefined" query).

(** [fetchSuggestions] up to its [await] (lines 197-204). *)
Definition fetchSuggestions (query : option string) (w : World State) : World State :=
  if too_short query
  then on_hook (setSuggestions (JArr [])) w
  else {| hook := setLoading true (hook w);
          host := api_get (request_url query) {| signal := None |} None (host w) |}.

(** [fetchSuggestions] from its [await] on (lines 204-210). *)
Definition fetchSuggestions_settled (o : Outcome) : Js State unit :=
  try_finally
    (try_catch
       (response ← await o;
        d ← lift (Get response "data");
        modify (setSuggestions d))
       (fun err => modify (setSuggestions (JArr []))))
    (modify (setLoading false)).

(** The effect and its cleanup (lines 213-214); the timer id lives in the
    closure of the cleanup. *)
Definition effect (query : option string) (w : World State) : nat * World State :=
  let (t, h) := setTimeout (CbFetchSuggestions query) 300 (host w) in
  (t, {| hook := hook w; host := h |}).

Definition cleanup (timeoutId : nat) (w : World State) : World State :=
  on_host (clearTimeout timeoutId) w.

(** The timer comes due and [fetchSuggestions] runs. *)
Definition timeout (id : nat) (w : World State) : World State :=
  match List.find (fun t => Nat.eqb (tid t) id) (timers (host w)) with
  | Some t =>
      if bool_decide (due t ≤ now (host w))%Z
      then
        let w := on_host (clearTimeout id) w in
        match callback t with
        | CbFetchSuggestions query => fetchSuggestions query w
        | CbFetchMovies _ => w
        end
      else w
  | None => w
  end.


End useSearchSuggestions.

(** ** [useStats] *)

Module useStats.

Record State : Type := { stats : JsVal; loading : bool; error : JsVal }.

Definition initial : State := {| stats := JNull; loading := true; error := JNull |}.

Definition setStats (v : JsVal) (s : State) : State :=
  {| stats := v; loading := loading s; error := error s |}.
Definition setLoading (b : bool) (s : State) : State :=
  {| stats := stats s; loading := b; error := error s |}.
Definition setError (v : JsVal) (s : State) : State :=
  {| stats := stats s; loading := loading s; error := v |}.

(** Declarations of the hook's body and of the effect callback; [fetchStats]
    is declared in the latter (line 251). *)
Definition hook_scope : Scope :=
  ["stats"; "setStats"; "loading"; "setLoading"; "error"; "setError"].
Definition effect_scope : Scope := ["fetchStats"].

(** [fetchStats] up to its [await] (lines 253-254). *)
Definition fetchStats (w : World State) : World State :=
  {| hook := setLoading true (hook w);
     host := api_get "/categories/stats" {| signal := None |} None (host w) |}.

(** [fetchStats] from its [await] on (lines 254-261). *)
Definition fetchStats_settled (o : Outcome) : Js State unit :=
  try_finally
    (try_catch
       (response ← await o;
        d ← lift (Get response "data");
        _ ← modify (setStats d);
        modify (setError JNull))
       (fun err =>
          message ← error_message err "Failed to fetch stats";
          modify (setError message)))
    (modify (setLoading false)).

(** The effect (line 264): the call [fetchStats()] inside the effect
    callback. *)
Definition effect : Js (World State) unit :=
  _ ← reference [effect_scope; hook_scope; module_scope; global_scope] "fetchStats";
  modify fetchStats.

(** [refetch: () => fetchStats()] (line 267): the arrow function is created
    in the hook's body, outside the effect callback. *)
Definition refetch : Js (World State) unit :=
  _ ← reference [[]; hook_scope; module_scope; global_scope] "fetchStats";
  modify fetchStats.

End useStats.

(** ** [useSeries] *)

Module useSeries.

Record State : Type :=
  { series : JsVal;
    loading : bool;
    error : JsVal;
    pagination : JsVal;
    isInitialLoadRef : bool }.

Definition initial : State :=
  {| series := JArr []; loading := false; error := JNull; pagination := JNull;
     isInitialLoadRef := true |}.

Definition setSeries (v : JsVal) (s : State) : State :=
  {| series := v; loading := loading s; error := error s; pagination := pagination s;
     isInitialLoadRef := isInitialLoadRef s |}.
Definition setLoading (b : bool) (s : State) : State :=
  {| series := series s; loading := b; error := error s; pagination := pagination s;
     isInitialLoadRef := isInitialLoadRef s |}.
Definition setError (v : JsVal) (s : State) : State :=
  {| series := series s; loading := loading s; error := v; pagination := pagination s;
     isInitialLoadRef := isInitialLoadRef s |}.
Definition setPagination (v : JsVal) (s : State) : State :=
  {| series := series s; loading := loading s; error := error s; pagination := v;
     isInitialLoadRef := isInitialLoadRef s |}.
Definition set_isInitialLoadRef (b : bool) (s : State) : State :=
  {| series := series s; loading := loading s; error := error s; pagination := pagination s;
     isInitialLoadRef := b |}.

(** Lines 282-288: the query parameters of the request. *)
Definition params (filters : Filters) : URLSearchParams.t :=
  append_filters filters URLSearchParams.new.

Definition request_url (filters : Filters) : string :=
  "/movies/series?" ++ URLSearchParams.toString (params filters).

(** [fetchSeries(isInitial)] of the render with [filters], up to its
    [await] (lines 278-290). *)
Definition fetchSeries (filters : Filters) (isInitial : bool) (w : World State) : World State :=
  let st := if isInitial then setLoading true (hook w) else hook w in
  {| hook := st;
     host := api_get (request_url filters) {| signal := None |} None (host w) |}.

(** [fetchSeries] from its [await] on (lines 290-304). *)
Definition fetchSeries_settled (o : Outcome) : Js State unit :=
  try_finally
    (try_catch
       (response ← await o;
        d ← lift (Get response "data");
        s ← lift (Get d "series");
        _ ← modify (setSeries s);
        d ← lift (Get response "data");
        total ← lift (Get d "total");
        d ← lift (Get response "data");
        page ← lift (Get d "page");
        d ← lift (Get response "data");
        pages ← lift (Get d "pages");
        _ ← modify (setPagination (JObj [("total", total); ("page", page); ("pages", pages)]));
        modify (setError JNull))
       (fun err =>
          message ← error_message err "Failed to fetch series";
          modify (setError message)))
    (modify (setLoading false)).

(** The effect (lines 308-311); it has no cleanup. *)
Definition effect (filters : Filters) (w : World State) : World State :=
  if isInitialLoadRef (hook w)
  then fetchSeries filters true (on_hook (set_isInitialLoadRef false) w)
  else w.

(** [refetch: () => fetchSeries(false)] of the render with [filters]. *)
Definition refetch (filters : Filters) (w : World State) : World State :=
  fetchSeries filters false w.

Definition mount (filters : Filters) (h : Host) : World State :=
  effect filters {| hook := initial; host := h |}.

End useSeries.

(** ** [useRelatedMovies] *)

Module useRelatedMovies.

Record State : Type := { movies : JsVal; loading : bool; error : JsVal }.

Definition initial : State := {| movies := JArr []; loading := true; error := JNull |}.

Definition setMovies (v : JsVal) (s : State) : State :=
  {| movies := v; loading := loading s; error := error s |}.
Definition setLoading (b : bool) (s : State) : State :=
  {| movies := movies s; loading := b; error := error s |}.
Definition setError (v : JsVal) (s : State) : State :=
  {| movies := movies s; loading := loading s; error := v |}.

Definition request_url (id : JsVal) : string := "/movies/related/" ++ ToString id.

(** [fetchRelated] up to its [await] (lines 172-173). *)
Definition fetchRelated (id : JsVal) (w : World State) : World State :=
  {| hook := setLoading true (hook w);
     host := api_get (request_url id) {| signal := None |} None (host w) |}.

(** [fetchRelated] from its [await] on (lines 173-180). *)
Definition fetchRelated_settled (o : Outcome) : Js State unit :=
  try_finally
    (try_catch
       (response ← await o;
        d ← lift (Get response "data");
        _ ← modify (setMovies d);
        modify (setError JNull))
       (fun err =>
          message ← error_message err "Failed to fetch related movies";
          modify (setError message)))
    (modify (setLoading false)).

(** The effect (lines 183-185). *)
Definition effect (id : JsVal) (w : World State) : World State :=
  if ToBoolean id then fetchRelated id w else w.

End useRelatedMovies.

(** ** [useCategories] *)

Module useCategories.

Record State : Type := { categories : JsVal; loading : bool; error : JsVal }.

Definition initial : State := {| categories := JNull; loading := true; error := JNull |}.

Definition setCategories (v : JsVal) (s : State) : State :=
  {| categories := v; loading := loading s; error := error s |}.
Definition setLoading (b : bool) (s : State) : State :=
  {| categories := categories s; loading := b; error := error s |}.
Definition setError (v : JsVal) (s : State) : State :=
  {| categories := categories s; loading := loading s; error := v |}.

(** [fetchCategories] up to its [await] (lines 228-229); the effect calls it
    once, on mount (line 239). *)
Definition fetchCategories (w : World State) : World State :=
  {| hook := setLoading true (hook w);
     host := api_get "/categories" {| signal := None |} None (host w) |}.

(** [fetchCategories] from its [await] on (lines 229-236). *)
Definition fetchCategories_settled (o : Outcome) : Js State unit :=
  try_finally
    (try_catch
       (response ← await o;
        d ← lift (Get response "data");
        _ ← modify (setCategories d);
        modify (setError JNull))
       (fun err =>
          message ← error_message err "Failed to fetch categories";
          modify (setError message)))
    (modify (setLoading false)).

End useCategories.

(** ** The mutation functions (lines 347-383)

    They keep no state; each makes one call and, when it settles, returns
    or throws. *)

Module mutations.

Inductive Method : Type := POST | PUT | DELETE | PATCH.

(** What is handed to [api.post], [api.put], [api.delete], [api.patch]. *)
Record Call : Type :=
  { method : Method;
    path : string;
    body : JsVal;                        (* [JUndefined]: no body *)
    headers : list (string * JsVal) }.   (* of the per-call config *)

Definition incrementDownloadCount (movieId : JsVal) : Call :=
  {| method := POST; path := "/movies/" ++ ToString movieId ++ "/download";
     body := JUndefined; headers := [] |}.

(** [try { await api.post(...) } catch (err) { console.error(...) }] *)
Definition incrementDownloadCount_settled {S} (o : Outcome) : Js S JsVal :=
  try_catch (_ ← await o; ret JUndefined) (fun err => ret JUndefined).

Definition createMovie (movieData adminKey : JsVal) : Call :=
  {| method := POST; path := "/movies"; body := movieData;
     headers := [("x-admin-key", adminKey)] |}.

Definition updateMovie (id movieData adminKey : JsVal) : Call :=
  {| method := PUT; path := "/movies/" ++ ToString id; body := movieData;
     headers := [("x-admin-key", adminKey)] |}.

Definition deleteMovie (id adminKey : JsVal) : Call :=
  {| method := DELETE; path := "/movies/" ++ ToString id; body := JUndefined;
     headers := [("x-admin-key", adminKey)] |}.

Definition toggleMovieStatus (id action adminKey : JsVal) : Call :=
  {| method := PATCH; path := "/movies/" ++ ToString id ++ "/" ++ ToString action;
     body := JObj []; headers := [("x-admin-key", adminKey)] |}.

(** [const response = await api.<method>(...); return response.data],
    the tail shared by [createMovie], [updateMovie], [deleteMovie] and
    [toggleMovieStatus]. *)
Definition returns_data {S} (o : Outcome) : Js S JsVal :=
  response ← await o;
  lift (Get response "data").

End mutations.

(** ** [MovieSkeleton] ([components/MovieSkeleton.jsx]) *)

Module MovieSkeleton.

(** The elements of the component are all [div]s. *)
Inductive Element : Type :=
| div (key : option nat) (className : string) (children : list Element).

Definition key_of (e : Element) : option nat := match e with div k _ _ => k end.
Definition className_of (e : Element) : string := match e with div _ c _ => c end.
Definition children_of (e : Element) : list Element := match e with div _ _ l => l end.

(** Lines 7-27: one card. *)
Definition card (index : nat) : Element :=
  div (Some index) "card overflow-hidden"
    [ div None "aspect-[2/3] skeleton-shimmer" [];
      div None "p-4 space-y-3"
        [ div None "h-5 skeleton-shimmer rounded w-3/4" [];
          div None "flex items-center space-x-2"
            [ div None "h-5 skeleton-shimmer rounded w-16" [];
              div None "h-5 skeleton-shimmer rounded w-12" [] ];
          div None "flex space-x-1.5"
            [ div None "h-5 skeleton-shimmer rounded w-10" [];
              div None "h-5 skeleton-shimmer rounded w-10" [] ];
          div None "flex items-center justify-between pt-2"
            [ div None "h-4 skeleton-shimmer rounded w-16" [];
              div None "h-4 skeleton-shimmer rounded w-12" [] ] ] ].

(** [({ count = 8 }) => ...], for a [count] that is an integer or absent
    ([None]).  [Array.from({ length: count })] has no element when [count]
    is negative, and throws a RangeError when [count] is 2^32 or more (an
    array cannot be that long). *)
Definition MovieSkeleton (count : option Z) : Completion Element :=
  let count := default 8%Z count in
  if (2 ^ 32 <=? count)%Z
  then Throw (RangeError "Invalid array length")
  else Normal (div None "grid grid-responsive" (map card (seq 0 (Z.to_nat count)))).

End MovieSkeleton.

(** ** Devices of the proofs *)

(** A block of code leaves the component [f] of the state as it found it,
    whatever its completion. *)
Definition preserves {S A X} (f : S -> X) (m : Js S A) : Prop :=
  forall s, f (snd (m s)) = f s.

(** Reading form-urlencoded text back, to show that [urlencoded] loses
    nothing. *)
Definition hex_value (c : ascii) : nat :=
  let n := nat_of_ascii c in
  if (n <? 58)%nat then n - 48 else n - 55.

Fixpoint urldecoded (s : string) : string :=
  match s with
  | EmptyString => EmptyString
  | String c rest =>
      if Ascii.eqb c "+" then String " " (urldecoded rest)
      else if Ascii.eqb c "%" then
        match rest with
        | String a (String b rest') =>
            String (ascii_of_nat (16 * hex_value a + hex_value b)) (urldecoded rest')
        | _ => String c (urldecoded rest)
        end
      else String c (urldecoded rest)
  end.

(** The characters [urlencoded] can produce. *)
Definition safe (x : ascii) : bool := is_alnum x || one_of "*-._+%" x.

(** The three shapes of an encoded character: [+] for a space, the
    character itself, or [%] and two hexadecimal digits that give it back. *)
Definition shape (c : ascii) : bool :=
  let e := urlencoded_char c in
  (Ascii.eqb c " " && String.eqb e "+")
  || (String.eqb e (String c "") && negb (Ascii.eqb c "+") && negb (Ascii.eqb c "%"))
  || match e with
     | String p (String a (String b EmptyString)) =>
         Ascii.eqb p "%" && Ascii.eqb (ascii_of_nat (16 * hex_value a + hex_value b)) c
     | _ => false
     end.

(** The characters of one [name=value] pair of a query string. *)
Definition pair_chars (p : string * string) : list ascii :=
  (String.list_ascii_of_string (urlencoded (fst p))
     ++ "="%char :: String.list_ascii_of_string (urlencoded (snd p)))%list.

(** Timer ids are handed out in order: those pending are below
    [timer_ids]. *)
Definition timers_fresh (h : Host) : Prop :=
  Forall (fun t => tid t < timer_ids h) (timers h).

(** The pending timers of a [useMovies] instance: none, or the one whose id
    is in [fetchTimeoutRef.current]. *)
Definition one_timer (w : World useMovies.State) : Prop :=
  timers (host w) = []
  \/ exists t, timers (host w) = [t] /\ useMovies.fetchTimeoutRef (hook w) = Some (tid t).

(** ** The specification's reading of the query string

    "Filters with empty-string, null, or undefined values are excluded from
    the outgoing query string": the parameters a filter object contributes,
    written from these words and compared below with [append_filters]. *)

Definition spec_filter_params (filters : Filters) : URLSearchParams.t :=
  map (fun kv => (fst kv, ToString (snd kv)))
      (filter (fun kv => non_empty (snd kv) = true) filters).

(** * Properties *)

(** ** Query parameters *)

Section QueryParameters.

Implicit Types (filters : Filters) (params : URLSearchParams.t) (k : string) (v : JsVal).

Lemma append_filters_spec filters params :
  append_filters filters params = (params ++ spec_filter_params filters)%list.
Proof.
  unfold append_filters, spec_filter_params.
  revert params; induction filters as [|[k v] rest IH]; intros params.
  - by rewrite app_nil_r.
  - cbn [fold_left]. rewrite IH, filter_cons. cbn [fst snd].
    destruct (non_empty v) eqn:Hv.
    + rewrite decide_True by done. unfold URLSearchParams.append.
      by rewrite <- app_assoc.
    + rewrite decide_False by done. done.
Qed.

Lemma own_property_None filters k :
  k ∉ keys filters -> own_property filters k = None.
Proof.
  induction filters as [|[k' v'] rest IH]; simpl; [done|].
  intros Hk. apply not_elem_of_cons in Hk as [Hne Hrest].
  destruct (String.eqb_spec k' k) as [->|_]; [done|]. by apply IH.
Qed.

Lemma own_property_In filters k v :
  NoDup (keys filters) -> In (k, v) filters -> own_property filters k = Some v.
Proof.
  induction filters as [|[k' v'] rest IH]; simpl; [done|].
  intros Hnd Hin. apply NoDup_cons in Hnd as [Hfresh Hnd].
  destruct Hin as [Heq|Hin].
  - injection Heq as -> ->. by rewrite String.eqb_refl.
  - destruct (String.eqb_spec k' k) as [->|_]; [|by apply IH].
    exfalso. apply Hfresh. apply list_elem_of_In.
    change k with (fst (k, v)). by apply in_map.
Qed.

Lemma getAll_app params1 params2 k :
  URLSearchParams.getAll (params1 ++ params2) k
  = (URLSearchParams.getAll params1 k ++ URLSearchParams.getAll params2 k)%list.
Proof. unfold URLSearchParams.getAll. by rewrite filter_app, map_app. Qed.

Lemma getAll_spec_filter_params filters k :
  NoDup (keys filters) ->
  URLSearchParams.getAll (spec_filter_params filters) k
  = match own_property filters k with
    | Some v => if non_empty v then [ToString v] else []
    | None => []
    end.
Proof.
  unfold URLSearchParams.getAll, spec_filter_params.
  induction filters as [|[k' v'] rest IH]; [done|].
  intros Hnd. apply NoDup_cons in Hnd as [Hfresh Hnd].
  specialize (IH Hnd). rewrite filter_cons. cbn [fst snd own_property].
  destruct (String.eqb_spec k' k) as [->|Hne].
  - rewrite (own_property_None rest k Hfresh) in IH.
    destruct (non_empty v') eqn:Hv.
    + rewrite decide_True by done. cbn [map fst snd].
      rewrite filter_cons_True by done. cbn [map snd]. by rewrite IH.
    + rewrite decide_False by done. done.
  - destruct (non_empty v') eqn:Hv.
    + rewrite decide_True by done. cbn [map fst snd].
      by rewrite filter_cons_False.
    + rewrite decide_False by done. done.
Qed.

Lemma has_getAll params k :
  URLSearchParams.has params k = false <-> URLSearchParams.getAll params k = [].
Proof.
  unfold URLSearchParams.has, URLSearchParams.getAll.
  induction params as [|[k' s] rest IH]; [done|].
  rewrite filter_cons. cbn [existsb fst].
  destruct (String.eqb_spec k' k) as [->|Hne].
  - rewrite decide_True by done. split; discriminate.
  - by rewrite decide_False.
Qed.

Lemma useMovies_params_spec filters :
  useMovies.params filters
  = (spec_filter_params filters
       ++ [("limit", ToString (js_or (prop filters "limit") (JNum 12)))])%list.
Proof.
  unfold useMovies.params, URLSearchParams.append, URLSearchParams.new.
  by rewrite append_filters_spec.
Qed.

Lemma useSeries_params_spec filters :
  useSeries.params filters = spec_filter_params filters.
Proof.
  unfold useSeries.params, URLSearchParams.new. by rewrite append_filters_spec.
Qed.

End QueryParameters.

Lemma ToBoolean_non_empty (v : JsVal) : ToBoolean v = true -> non_empty v = true.
Proof. by destruct v. Qed.

Lemma prop_empty_own_property (filters : Filters) (k : string) :
  non_empty (prop filters k) = false ->
  match own_property filters k with
  | Some v => if non_empty v then [ToString v] else []
  | None => []
  end = [].
Proof.
  unfold prop. destruct (own_property filters k) as [v|]; [|done].
  simpl. by intros ->.
Qed.

(** C7, as amended.  For every filter object, the parameters [fetchSeries]
    sends are exactly those of the entries whose value is not the empty
    string, null or undefined, and [fetchMovies] sends the same ones
    followed by one [limit]; no entry with an empty value has its key among
    the parameters that come from the filters; and when the filter object
    gives no limit (or an empty one) the [limit] that [fetchMovies] sends is
    12.  [fetchSeries] adds no [limit] of its own. *)
Theorem query_excludes_empty_filters (filters : Filters) :
  NoDup (keys filters) ->
  useSeries.params filters = spec_filter_params filters
  /\ useMovies.params filters
     = (spec_filter_params filters
          ++ [("limit", ToString (js_or (prop filters "limit") (JNum 12)))])%list
  /\ (forall k v, In (k, v) filters -> non_empty v = false ->
        URLSearchParams.has (spec_filter_params filters) k = false)
  /\ (non_empty (prop filters "limit") = false ->
        URLSearchParams.getAll (useMovies.params filters) "limit" = ["12"]).
Proof.
  intros Hnd. split; [apply useSeries_params_spec|].
  split; [apply useMovies_params_spec|]. split.
  - intros k v Hin Hv. apply has_getAll.
    rewrite getAll_spec_filter_params by done.
    by rewrite (own_property_In filters k v Hnd Hin), Hv.
  - intros Hlimit. rewrite useMovies_params_spec, getAll_app.
    rewrite getAll_spec_filter_params by done.
    rewrite prop_empty_own_property by done.
    unfold js_or. destruct (ToBoolean (prop filters "limit")) eqn:Htruthy.
    + apply ToBoolean_non_empty in Htruthy. congruence.
    + reflexivity.
Qed.

Lemma query_excludes_empty_filters_witness :
  let filters := [("genre", JStr "drama"); ("q", JStr ""); ("year", JNull);
                  ("sort", JUndefined)] in
  useSeries.request_url filters = "/movies/series?genre=drama"
  /\ useMovies.request_url filters = "/movies?genre=drama&limit=12"
  /\ URLSearchParams.has (spec_filter_params filters) "q" = false
  /\ URLSearchParams.getAll (useMovies.params filters) "limit" = ["12"].
Proof.
  intros filters.
  assert (Hnd : NoDup (keys filters)) by (apply (bool_decide_unpack _); vm_compute; exact I).
  destruct (query_excludes_empty_filters filters Hnd) as (Hs & Hm & Hex & Hlim).
  split; [reflexivity|]. split; [reflexivity|]. split.
  - apply (Hex "q" (JStr "")); [|reflexivity]. simpl. tauto.
  - apply Hlim. reflexivity.
Defined.

(** C7, refuted as stated: [useSeries] with a filter object that gives no
    limit sends no [limit] parameter at all. *)
Lemma useSeries_no_default_limit :
  own_property ([] : Filters) "limit" = None
  /\ URLSearchParams.getAll (useSeries.params []) "limit" = []
  /\ useSeries.request_url [] = "/movies/series?".
Proof. repeat split; reflexivity. Qed.

(** C10, as amended.  For every filter object in which [limit] is present
    and is not the empty string, null or undefined, [fetchMovies] sends the
    [limit] parameter twice: first the given value, then [filters.limit || 12],
    which is the given value again when that value is truthy (and 12 when it
    is 0 or false). *)
Theorem useMovies_limit_twice (filters : Filters) (v : JsVal) :
  NoDup (keys filters) ->
  own_property filters "limit" = Some v ->
  non_empty v = true ->
  URLSearchParams.getAll (useMovies.params filters) "limit"
  = [ToString v; ToString (js_or v (JNum 12))]
  /\ (ToBoolean v = true ->
        URLSearchParams.getAll (useMovies.params filters) "limit"
        = [ToString v; ToString v]).
Proof.
  intros Hnd Hlimit Hv.
  assert (Hall : URLSearchParams.getAll (useMovies.params filters) "limit"
                 = [ToString v; ToString (js_or v (JNum 12))]).
  { rewrite useMovies_params_spec, getAll_app.
    rewrite getAll_spec_filter_params by done.
    unfold prop. rewrite Hlimit, Hv. reflexivity. }
  split; [done|]. intros Htruthy. rewrite Hall. unfold js_or. by rewrite Htruthy.
Qed.

Lemma useMovies_limit_twice_witness :
  URLSearchParams.getAll (useMovies.params [("limit", JNum 20)]) "limit" = ["20"; "20"]
  /\ useMovies.request_url [("limit", JNum 20)] = "/movies?limit=20&limit=20".
Proof.
  split; [|reflexivity].
  refine (proj2 (useMovies_limit_twice [("limit", JNum 20)] (JNum 20) _ _ _) _);
    try reflexivity.
  apply (bool_decide_unpack _); vm_compute; exact I.
Defined.

(** C10, refuted as stated: with [limit: 0] the two [limit] parameters
    differ, because [0 || 12] is 12. *)
Lemma useMovies_limit_zero :
  own_property [("limit", JNum 0)] "limit" = Some (JNum 0)
  /\ non_empty (JNum 0) = true
  /\ URLSearchParams.getAll (useMovies.params [("limit", JNum 0)]) "limit" = ["0"; "12"]
  /\ useMovies.request_url [("limit", JNum 0)] = "/movies?limit=0&limit=12".
Proof. repeat split; reflexivity. Qed.

(** ** The memoizing GET wrapper *)

Section CachedApi.

Implicit Types (u key : string) (o : Options) (h : Host) (d response : JsVal).

Lemma get_miss u o h :
  cachedApi.cached h (cachedApi.cacheKey u o) = None ->
  cachedApi.get u o h = (None, api_get u o (Some (cachedApi.cacheKey u o)) h).
Proof. unfold cachedApi.get. by intros ->. Qed.

Lemma get_hit u o h d :
  cachedApi.cached h (cachedApi.cacheKey u o) = Some d ->
  cachedApi.get u o h = (Some d, h).
Proof. unfold cachedApi.get. by intros ->. Qed.

Lemma get_settled_resolved key response d h :
  Get response "data" = Normal d ->
  cachedApi.get_settled key (Resolved response) h
  = (Normal response,
     set_cache (<[key := {| data := d; timestamp := now h |}]> (cache h)) h).
Proof.
  intros Hd. unfold cachedApi.get_settled, mbind, Js_bind, bind, await, ret, lift, modify.
  by rewrite Hd.
Qed.

(** No negative caching: a failed call leaves the cache as it was. *)
Lemma get_settled_rejected key err h :
  cachedApi.get_settled key (Rejected err) h = (Throw err, h).
Proof. reflexivity. Qed.

Lemma cached_after_store key d h ms :
  cachedApi.cached
    (elapse ms (set_cache (<[key := {| data := d; timestamp := now h |}]> (cache h)) h)) key
  = if bool_decide (ms < 300000)%Z then Some d else None.
Proof.
  unfold cachedApi.cached; simpl. rewrite lookup_insert_eq; simpl.
  replace (now h + ms - now h)%Z with ms by lia. done.
Qed.

End CachedApi.

(** C1, on the code.  A call of [cachedApi.get] that finds no fresh entry
    makes the network call; when that settles with [response], [get] returns
    [response] and stores [response.data].  A second call with the same key
    less than 300000 ms later makes no network call (the host is unchanged)
    and returns the stored [response.data], not [response]; from 300000 ms
    on it makes the network call again. *)
Theorem cachedApi_get_hit_returns_data
    (u : string) (o : Options) (h h1 : Host) (response d : JsVal) (ms : Z) :
  cachedApi.cached h (cachedApi.cacheKey u o) = None ->
  Get response "data" = Normal d ->
  (0 <= ms)%Z ->
  let key := cachedApi.cacheKey u o in
  let settled := cachedApi.get_settled key (Resolved response) h1 in
  let h2 := elapse ms (snd settled) in
  cachedApi.get u o h = (None, api_get u o (Some key) h)
  /\ fst settled = Normal response
  /\ ((ms < 300000)%Z -> cachedApi.get u o h2 = (Some d, h2))
  /\ ((300000 <= ms)%Z -> cachedApi.get u o h2 = (None, api_get u o (Some key) h2)).
Proof.
  intros Hmiss Hd Hms key settled h2. subst settled h2.
  rewrite (get_settled_resolved key response d h1 Hd). cbn [fst snd].
  split; [by apply get_miss|]. split; [done|]. split; intros Hwin.
  - apply get_hit. fold key. rewrite cached_after_store. by rewrite bool_decide_true.
  - apply get_miss. fold key. rewrite cached_after_store.
    rewrite bool_decide_false by lia. done.
Qed.

Lemma cachedApi_get_hit_returns_data_witness :
  let u := "/movies?limit=12" in
  let o := {| signal := Some 0 |} in
  let body := JObj [("movies", JArr []); ("total", JNum 0); ("page", JNum 1);
                    ("pages", JNum 0)] in
  let response := JObj [("data", body); ("status", JNum 200)] in
  let h1 := remove_request 0 (snd (cachedApi.get u o fresh_host)) in
  let h2 := elapse 1000 (snd (cachedApi.get_settled (cachedApi.cacheKey u o)
                                                    (Resolved response) h1)) in
  fst (cachedApi.get_settled (cachedApi.cacheKey u o) (Resolved response) h1)
  = Normal response
  /\ cachedApi.get u o h2 = (Some body, h2)
  /\ body <> response.
Proof.
  intros u o body response h1 h2.
  destruct (cachedApi_get_hit_returns_data u o fresh_host h1 response body 1000)
    as (_ & Hfirst & Hhit & _); [reflexivity | reflexivity | lia |].
  split; [exact Hfirst|]. split; [apply Hhit; lia | discriminate].
Defined.

(** ** [useMovies] *)

Section UseMovies.

Import useMovies.

Implicit Types (w : World State) (st : State) (h : Host) (err response : JsVal).

Lemma fetchMovies_settled_abort st err :
  Get err "name" = Normal (JStr "AbortError") ->
  fetchMovies_settled (Throw err) st
  = (Normal tt, set_abortControllerRef None (setLoading false st)).
Proof.
  intros Hname.
  unfold fetchMovies_settled, try_finally, try_catch, mbind, Js_bind, bind, lift, modify.
  by rewrite Hname.
Qed.

Lemma fetchMovies_settled_success st response ms total page pages :
  Get response "data"
  = Normal (JObj [("movies", ms); ("total", total); ("page", page); ("pages", pages)]) ->
  fetchMovies_settled (Normal response) st
  = (Normal tt,
     set_abortControllerRef None
       (setLoading false
          (setIsDataLoaded true
             (setError JNull
                (setPagination
                   (JObj [("total", total); ("page", page); ("pages", pages)])
                   (setMovies ms st)))))).
Proof.
  intros Hdata.
  unfold fetchMovies_settled, try_finally, try_catch, mbind, Js_bind, bind, lift, modify.
  rewrite Hdata. reflexivity.
Qed.

Lemma settle_rejected w id r err :
  find_request id (host w) = Some r ->
  settle id (Rejected err) w
  = {| hook := snd (fetchMovies_settled (Throw err) (hook w));
       host := remove_request id (host w) |}.
Proof. intros Hr. unfold settle. by rewrite Hr. Qed.

Lemma find_request_api_get h u o key :
  host_wf h ->
  find_request (issued h) (api_get u o key h)
  = Some {| rid := issued h; url := u; req_signal := signal o; cache_key := key |}.
Proof.
  unfold host_wf, find_request, api_get; simpl.
  generalize (issued h) as n. induction (network h) as [|r rest IH]; intros n Hwf; simpl.
  - by rewrite Nat.eqb_refl.
  - apply Forall_cons in Hwf as [Hr Hrest].
    destruct (Nat.eqb_spec (rid r) n) as [Heq|_]; [lia|]. by apply IH.
Qed.

(** Whatever the outcome, the [finally] block leaves
    [abortControllerRef.current] null. *)
Lemma fetchMovies_settled_clears_ref got st :
  abortControllerRef (snd (fetchMovies_settled got st)) = None.
Proof.
  unfold fetchMovies_settled, try_finally.
  match goal with |- context [try_catch ?b ?k st] => destruct (try_catch b k st) end.
  reflexivity.
Qed.

(** A fetch aborts the controller it finds in the ref (lines 55-57). *)
Lemma fetchMovies_aborts_ref filters isInitial w c :
  abortControllerRef (hook w) = Some c ->
  c ∈ aborted (host (fetchMovies filters isInitial w)).
Proof.
  intros Hc. unfold fetchMovies. rewrite Hc. cbn [on_host host hook new_controller].
  unfold cachedApi.get.
  match goal with |- context [cachedApi.cached ?h ?k] => destruct (cachedApi.cached h k) end;
    cbn [host api_get set_network aborted abort]; apply list_elem_of_here.
Qed.

End UseMovies.

(** The branch of line 95.  A rejection whose name is AbortError (what the
    fetch API throws on an abort) leaves the error state, the movies and the
    pagination as they were and clears loading.  No rejection that axios
    produces for an aborted call takes this branch: see the next theorem. *)
Lemma fetchMovies_AbortError_branch
    (w : World useMovies.State) (id : nat) (r : Request) (err : JsVal) :
  find_request id (host w) = Some r ->
  Get err "name" = Normal (JStr "AbortError") ->
  let w' := useMovies.settle id (Rejected err) w in
  useMovies.error (hook w') = useMovies.error (hook w)
  /\ useMovies.movies (hook w') = useMovies.movies (hook w)
  /\ useMovies.pagination (hook w') = useMovies.pagination (hook w)
  /\ useMovies.isDataLoaded (hook w') = useMovies.isDataLoaded (hook w)
  /\ useMovies.loading (hook w') = false
  /\ cache (host w') = cache (host w).
Proof.
  intros Hr Hname w'. subst w'.
  rewrite (settle_rejected w id r err Hr), (fetchMovies_settled_abort _ err Hname).
  repeat split.
Qed.

(** C4, on the code.  A request of [useMovies] whose signal has been aborted
    is rejected by axios with a CanceledError.  Its name is not AbortError,
    so the test of line 95 fails and line 100 runs: the error state is set to
    'Failed to fetch movies'.  The movies and the pagination are left as
    they were and loading is cleared. *)
Theorem useMovies_aborted_request_sets_error
    (w : World useMovies.State) (id : nat) (r : Request) :
  find_request id (host w) = Some r ->
  is_aborted (host w) r = true ->
  let w' := useMovies.settle id (Rejected CanceledError) w in
  useMovies.error (hook w') = JStr "Failed to fetch movies"
  /\ useMovies.movies (hook w') = useMovies.movies (hook w)
  /\ useMovies.pagination (hook w') = useMovies.pagination (hook w)
  /\ useMovies.loading (hook w') = false.
Proof.
  intros Hr _ w'. subst w'. rewrite (settle_rejected w id r CanceledError Hr).
  repeat split.
Qed.

Lemma useMovies_aborted_request_sets_error_witness :
  let body := JObj [("movies", JArr [JStr "Heat"]); ("total", JNum 1); ("page", JNum 1);
                    ("pages", JNum 1)] in
  let w := useMovies.run {| hook := useMovies.initial; host := fresh_host |}
             [useMovies.Effect []; useMovies.Settle 0 (Resolved (JObj [("data", body)]));
              useMovies.Refetch [("genre", JStr "drama")]; useMovies.Cleanup] in
  let w' := useMovies.settle 1 (Rejected CanceledError) w in
  useMovies.error (hook w) = JNull
  /\ aborted (host w) = [1]
  /\ useMovies.error (hook w') = JStr "Failed to fetch movies"
  /\ useMovies.movies (hook w') = JArr [JStr "Heat"].
Proof.
  intros body w w'.
  destruct (useMovies_aborted_request_sets_error w 1
              {| rid := 1; url := "/movies?genre=drama&limit=12"; req_signal := Some 1;
                 cache_key := Some (cachedApi.cacheKey "/movies?genre=drama&limit=12"
                                                       {| signal := Some 1 |}) |})
    as (He & Hm & _); [vm_compute; reflexivity | vm_compute; reflexivity |].
  split; [vm_compute; reflexivity|]. split; [vm_compute; reflexivity|].
  split; [exact He|]. subst w'. rewrite Hm. vm_compute. reflexivity.
Defined.

(** The first fetch.  Mounting [useMovies({ genre: 'drama' })] in a host
    whose cache holds no fresh entry for the request sends
    GET /movies?genre=drama&limit=12 at once, with loading set; when that
    call resolves with a response whose data is [{movies, total, page, pages}],
    the response is applied.  The hook does not stay there: see the next
    theorem. *)
Lemma useMovies_first_fetch
    (h : Host) (response ms total page pages : JsVal) :
  let u := "/movies?genre=drama&limit=12" in
  let o := {| signal := Some (controllers h) |} in
  host_wf h ->
  cachedApi.cached h (cachedApi.cacheKey u o) = None ->
  Get response "data"
  = Normal (JObj [("movies", ms); ("total", total); ("page", page); ("pages", pages)]) ->
  let w := useMovies.mount [("genre", JStr "drama")] h in
  let w' := useMovies.settle (issued h) (Resolved response) w in
  network (host w)
  = (network h ++ [{| rid := issued h; url := u; req_signal := Some (controllers h);
                      cache_key := Some (cachedApi.cacheKey u o) |}])%list
  /\ useMovies.loading (hook w) = true
  /\ useMovies.loading (hook w') = false
  /\ useMovies.error (hook w') = JNull
  /\ useMovies.movies (hook w') = ms
  /\ useMovies.pagination (hook w')
     = JObj [("total", total); ("page", page); ("pages", pages)].
Proof.
  intros u o Hwf Hmiss Hdata w w'.
  assert (Hw : w = {| hook := useMovies.set_isInitialLoadRef false
                                (useMovies.setLoading true
                                   (useMovies.set_abortControllerRef
                                      (Some (controllers h)) useMovies.initial));
                      host := api_get u o (Some (cachedApi.cacheKey u o))
                                      (snd (new_controller h)) |}).
  { subst w. unfold useMovies.mount, useMovies.effect. cbn [hook useMovies.initial
      useMovies.isInitialLoadRef]. unfold useMovies.fetchMovies.
    cbn [hook host useMovies.initial useMovies.abortControllerRef new_controller].
    change (useMovies.request_url [("genre", JStr "drama")]) with u.
    rewrite get_miss by exact Hmiss. reflexivity. }
  assert (Hfind : find_request (issued h) (host w)
                  = Some {| rid := issued h; url := u; req_signal := Some (controllers h);
                            cache_key := Some (cachedApi.cacheKey u o) |}).
  { rewrite Hw. cbn [host].
    apply (find_request_api_get (snd (new_controller h)) u o). exact Hwf. }
  subst w'. unfold useMovies.settle. rewrite Hfind. cbn [cache_key default].
  rewrite (get_settled_resolved _ response _ _ Hdata).
  rewrite (fetchMovies_settled_success _ response ms total page pages Hdata).
  rewrite Hw. repeat split.
Qed.

(** C6, on the code.  [useMovies({ genre: 'drama' })] on a fresh page sends
    GET /movies?genre=drama&limit=12, and the response
    [{movies: [3 items], total: 3, page: 1, pages: 1}] is applied.  The state
    change renders the component again; the filter object of the call is a
    new object on every render, so the cleanup and the effect run again and
    the debounced fetch fires after 150 ms.  [cachedApi.get] answers it from
    the cache with the body instead of the response (the slip of C1), and the
    hook ends with error 'Failed to fetch movies': one request was sent, the
    movies and the pagination are still those of the response, and from then
    on every further render leaves the same state. *)
Theorem useMovies_end_to_end_ends_in_error (m1 m2 m3 : JsVal) :
  let filters := [("genre", JStr "drama")] in
  let body := JObj [("movies", JArr [m1; m2; m3]); ("total", JNum 3); ("page", JNum 1);
                    ("pages", JNum 1)] in
  let response := JObj [("data", body); ("status", JNum 200)] in
  let rerender := [useMovies.Cleanup; useMovies.Effect filters;
                   useMovies.Elapse 150; useMovies.Timeout 0] in
  let w0 := useMovies.mount filters fresh_host in
  let w1 := useMovies.run w0 [useMovies.Settle 0 (Resolved response)] in
  let w2 := useMovies.run w1 rerender in
  let w3 := useMovies.run w2 [useMovies.Cleanup; useMovies.Effect filters;
                              useMovies.Elapse 150; useMovies.Timeout 1] in
  map url (network (host w0)) = ["/movies?genre=drama&limit=12"]
  /\ (useMovies.loading (hook w1) = false
      /\ useMovies.error (hook w1) = JNull
      /\ useMovies.movies (hook w1) = JArr [m1; m2; m3]
      /\ useMovies.pagination (hook w1)
         = JObj [("total", JNum 3); ("page", JNum 1); ("pages", JNum 1)])
  /\ (useMovies.loading (hook w2) = false
      /\ useMovies.error (hook w2) = JStr "Failed to fetch movies"
      /\ useMovies.movies (hook w2) = JArr [m1; m2; m3]
      /\ useMovies.pagination (hook w2)
         = JObj [("total", JNum 3); ("page", JNum 1); ("pages", JNum 1)])
  /\ issued (host w2) = 1
  /\ network (host w2) = []
  /\ timers (host w2) = []
  /\ useMovies.error (hook w3) = JStr "Failed to fetch movies"
  /\ useMovies.movies (hook w3) = JArr [m1; m2; m3]
  /\ issued (host w3) = 1
  /\ timers (host w3) = [].
Proof. vm_compute. repeat split. Qed.

(** C5, on the code.  The [finally] block of a request that has been
    superseded clears [abortControllerRef.current], which by then holds the
    controller of the request that superseded it.  After: mount, [refetch()]
    while the first request is in flight, the abort of the first request
    delivered, then a filter change whose debounced fetch fires, two requests
    are in flight and neither has been aborted; if the later one resolves
    first, the response of the earlier one is applied last. *)
Theorem useMovies_two_requests_in_flight :
  let abortError := mkError "AbortError" "canceled" in
  let drama := [("genre", JStr "drama")] in
  let response (title : string) :=
    JObj [("data", JObj [("movies", JArr [JStr title]); ("total", JNum 1);
                         ("page", JNum 1); ("pages", JNum 1)])] in
  let w := useMovies.run {| hook := useMovies.initial; host := fresh_host |}
             [useMovies.Effect []; useMovies.Refetch [];
              useMovies.Settle 0 (Rejected abortError);
              useMovies.Cleanup; useMovies.Effect drama;
              useMovies.Elapse 150; useMovies.Timeout 0] in
  let w' := useMovies.run w [useMovies.Settle 2 (Resolved (response "drama"));
                             useMovies.Settle 1 (Resolved (response "all"))] in
  aborted (host w) = [0]
  /\ map rid (live (host w)) = [1; 2]
  /\ map url (live (host w)) = ["/movies?limit=12"; "/movies?genre=drama&limit=12"]
  /\ useMovies.movies (hook w') = JArr [JStr "all"]
  /\ useMovies.error (hook w') = JNull.
Proof. vm_compute. repeat split. Qed.

(** The same run with the rejection axios produces for the aborted request:
    the same two requests are in flight, and the older response is applied
    last. *)
Example useMovies_two_requests_in_flight_axios :
  let response (title : string) :=
    JObj [("data", JObj [("movies", JArr [JStr title]); ("total", JNum 1);
                         ("page", JNum 1); ("pages", JNum 1)])] in
  let w := useMovies.run {| hook := useMovies.initial; host := fresh_host |}
             [useMovies.Effect []; useMovies.Refetch [];
              useMovies.Settle 0 (Rejected CanceledError);
              useMovies.Cleanup; useMovies.Effect [("genre", JStr "drama")];
              useMovies.Elapse 150; useMovies.Timeout 0] in
  let w' := useMovies.run w [useMovies.Settle 2 (Resolved (response "drama"));
                             useMovies.Settle 1 (Resolved (response "all"))] in
  map rid (live (host w)) = [1; 2]
  /\ useMovies.movies (hook w') = JArr [JStr "all"].
Proof. vm_compute. repeat split. Qed.

(** What the hit of C1 does to the caller: [fetchMovies] reads
    [response.data.movies] of what [cachedApi.get] returns, so a second fetch
    of the same URL within five minutes, answered from the cache, ends in the
    [catch] block with a TypeError and sets the error state. *)
Example useMovies_cache_hit_sets_error :
  let body := JObj [("movies", JArr [JStr "Heat"]); ("total", JNum 1); ("page", JNum 1);
                    ("pages", JNum 1)] in
  let w := useMovies.run {| hook := useMovies.initial; host := fresh_host |}
             [useMovies.Effect []; useMovies.Settle 0 (Resolved (JObj [("data", body)]));
              useMovies.Elapse 1000; useMovies.Refetch []] in
  useMovies.error (hook w) = JStr "Failed to fetch movies"
  /\ issued (host w) = 1
  /\ network (host w) = [].
Proof. vm_compute. repeat split. Qed.

(** ** Single-entity hooks *)

(** C2, on the code.  When the GET of [useMovie] fails, the [catch] block
    of [fetchMovie] throws before it reaches [setError]: reading [params]
    (line 149), which no enclosing scope declares, raises a ReferenceError
    (or [err.response] raises a TypeError first, when the rejection value is
    undefined or null).  The error state is left as it was, [finally] clears
    loading, and the exception leaves [fetchMovie]. *)
Theorem useMovie_failed_request_escapes (err : JsVal) (st : useMovie.State) :
  useMovie.fetchMovie_settled (Rejected err) st
  = (Throw (match Get err "response" with
            | Throw e => e
            | Normal _ => ReferenceError "params"
            end),
     useMovie.setLoading false st).
Proof.
  unfold useMovie.fetchMovie_settled, try_finally, try_catch, mbind, Js_bind, bind,
    await, throw, lift, modify.
  destruct (Get err "response"); reflexivity.
Qed.

(** The failing input of C2: HTTP 500 with body [{message: "server error"}]. *)
Example useMovie_server_error :
  let err := JObj [("name", JStr "AxiosError");
                   ("response", JObj [("status", JNum 500);
                                      ("data", JObj [("message", JStr "server error")])])] in
  useMovie.fetchMovie_settled (Rejected err) useMovie.initial
  = (Throw (ReferenceError "params"),
     {| useMovie.movie := JNull; useMovie.loading := false; useMovie.error := JNull |}).
Proof. reflexivity. Qed.

(** The sibling [useSeriesDetails], whose [catch] block logs
    [`${API_URL}/movies/${id}`] instead, does set the error state. *)
Lemma useSeriesDetails_failed_request_sets_error
    (err r : JsVal) (st : useSeriesDetails.State) :
  Get err "response" = Normal r ->
  exists message,
    useSeriesDetails.fetchSeries_settled (Rejected err) st
    = (Normal tt, useSeriesDetails.setLoading false (useSeriesDetails.setError message st)).
Proof.
  intros Hr.
  unfold useSeriesDetails.fetchSeries_settled, try_finally, try_catch, error_message,
    mbind, Js_bind, bind, await, throw, lift, modify, ret.
  rewrite Hr. cbn.
  destruct (GetOpt r "data") as [d|e] eqn:Hd.
  - destruct (GetOpt d "message") as [m|e] eqn:Hm; [eauto|].
    destruct d; discriminate.
  - destruct r; discriminate.
Qed.

(** C9.  [refetch] of [useStats] throws a ReferenceError whenever it is
    called: [fetchStats] is declared in the effect callback and is not in
    scope where the arrow function is created.  Nothing of the hook or of
    the host changes, so [refetch] never updates the stats. *)
Theorem useStats_refetch_throws (w : World useStats.State) :
  useStats.refetch w = (Throw (ReferenceError "fetchStats"), w).
Proof. reflexivity. Qed.

(** Inside the effect callback the same call does run. *)
Lemma useStats_effect_fetches (w : World useStats.State) :
  useStats.effect w = (Normal tt, useStats.fetchStats w).
Proof. reflexivity. Qed.

(** ** [useSearchSuggestions] *)





(** The same through the debounce: the effect sets a 300 ms timer, and when
    it fires for a one-character query nothing goes to the network. *)
Example useSearchSuggestions_short_query_timer :
  let w := {| hook := useSearchSuggestions.initial; host := fresh_host |} in
  let (t, w1) := useSearchSuggestions.effect (Some "h") w in
  let w2 := useSearchSuggestions.timeout t (on_host (elapse 300) w1) in
  map due (timers (host w1)) = [300%Z]
  /\ useSearchSuggestions.suggestions (hook w2) = JArr []
  /\ issued (host w2) = 0
  /\ timers (host w2) = [].
Proof. vm_compute. repeat split. Qed.

(** The length is the one JavaScript sees: one accented character (two
    bytes of UTF-8) is too short and sends nothing, one character outside
    the basic plane (a surrogate pair, four bytes) is not. *)
Example useSearchSuggestions_non_ascii_queries :
  let w := {| hook := useSearchSuggestions.initial; host := fresh_host |} in
  String.length "é" = 2
  /\ network (host (useSearchSuggestions.fetchSuggestions (Some "é") w)) = []
  /\ map url (network (host (useSearchSuggestions.fetchSuggestions (Some "😀") w)))
     = ["/movies/search-suggestions?q=%F0%9F%98%80"].
Proof. vm_compute. repeat split. Qed.

Lemma too_short_length (s : string) :
  useSearchSuggestions.too_short (Some s) = true <-> utf16_length s < 2.
Proof.
  unfold useSearchSuggestions.too_short. rewrite orb_true_iff, Nat.ltb_lt. split.
  - intros [Hempty|Hshort]; [|done]. apply String.eqb_eq in Hempty as ->. simpl. lia.
  - auto.
Qed.

(** A query of two characters or more does go to the network. *)
Example useSearchSuggestions_long_query :
  map url (network (host (useSearchSuggestions.fetchSuggestions (Some "he at")
             {| hook := useSearchSuggestions.initial; host := fresh_host |})))
  = ["/movies/search-suggestions?q=he%20at"].
Proof. reflexivity. Qed.

(** ** [useSeries] *)

Lemma useSeries_mount (filters : Filters) (h : Host) :
  useSeries.mount filters h
  = {| hook := useSeries.setLoading true
                 (useSeries.set_isInitialLoadRef false useSeries.initial);
       host := api_get (useSeries.request_url filters) {| signal := None |} None h |}.
Proof. reflexivity. Qed.

(** C3, as amended.  The first run of the effect of [useSeries] fetches at
    once, with loading set.  Every later run of the effect, whatever the
    filters, changes nothing: no request goes out and no timer is set, as
    the effect does nothing unless [isInitialLoadRef.current] is true and
    there is no debounce in this hook.  New filters reach the server only
    through [refetch], which sends the request at once. *)
Theorem useSeries_fetches_on_mount_only :
  (forall (filters : Filters) (h : Host),
      let w0 := useSeries.mount filters h in
      network (host w0)
      = (network h ++ [{| rid := issued h; url := useSeries.request_url filters;
                          req_signal := None; cache_key := None |}])%list
      /\ timers (host w0) = timers h
      /\ useSeries.loading (hook w0) = true
      /\ useSeries.isInitialLoadRef (hook w0) = false)
  /\ (forall (filters : Filters) (w : World useSeries.State),
        useSeries.isInitialLoadRef (hook w) = false ->
        useSeries.effect filters w = w)
  /\ (forall (filters : Filters) (w : World useSeries.State),
        let w1 := useSeries.refetch filters w in
        network (host w1)
        = (network (host w) ++ [{| rid := issued (host w);
                                   url := useSeries.request_url filters;
                                   req_signal := None; cache_key := None |}])%list
        /\ timers (host w1) = timers (host w)
        /\ hook w1 = hook w).
Proof.
  split; [intros filters h; by rewrite useSeries_mount|]. split.
  - intros filters w Hnot. unfold useSeries.effect. by rewrite Hnot.
  - done.
Qed.

Lemma useSeries_fetches_on_mount_only_witness :
  let w := useSeries.mount [] fresh_host in
  useSeries.effect [("genre", JStr "drama")] w = w.
Proof.
  intros w.
  apply (proj1 (proj2 useSeries_fetches_on_mount_only) [("genre", JStr "drama")] w).
  reflexivity.
Defined.

(** C3, refuted as stated: after the mount, a filter change runs the effect
    again and leaves the instance as it was: one request, for the filters of
    the mount, no timer pending, and the same after 150 ms. *)
Lemma useSeries_filter_change_ignored :
  let w := useSeries.mount [] fresh_host in
  let w' := on_host (elapse 150) (useSeries.effect [("genre", JStr "drama")] w) in
  map url (network (host w')) = ["/movies/series?"]
  /\ issued (host w') = 1
  /\ timers (host w') = []
  /\ hook w' = hook w.
Proof. repeat split; reflexivity. Qed.

(** * Further properties of the code *)

(** ** The query string and the cache key *)

Section Encoding.

Local Abbreviation chars := String.list_ascii_of_string.

Lemma chars_app (s1 s2 : string) : chars (s1 ++ s2) = (chars s1 ++ chars s2)%list.
Proof. induction s1 as [|c s1 IH]; simpl; [done|]. by rewrite IH. Qed.

Lemma chars_inj (s1 s2 : string) : chars s1 = chars s2 -> s1 = s2.
Proof.
  intros H. rewrite <- (String.string_of_list_ascii_of_string s1),
    <- (String.string_of_list_ascii_of_string s2). by rewrite H.
Qed.

Lemma all_ascii (P : ascii -> bool) :
  forallb (fun n => P (ascii_of_nat n)) (seq 0 256) = true -> forall c, P c = true.
Proof.
  intros Hall c. rewrite <- (ascii_nat_embedding c).
  apply (proj1 (forallb_forall _ _) Hall).
  apply in_seq. pose proof (nat_ascii_bounded c). lia.
Qed.


Lemma urlencoded_char_safe (c : ascii) :
  forallb safe (chars (urlencoded_char c)) = true.
Proof. revert c. apply all_ascii. vm_compute. reflexivity. Qed.

Lemma urlencoded_safe (s : string) : forallb safe (chars (urlencoded s)) = true.
Proof.
  induction s as [|c s IH]; [done|].
  change (urlencoded (String c s)) with (urlencoded_char c ++ urlencoded s).
  rewrite chars_app, forallb_app, urlencoded_char_safe, IH. done.
Qed.

Lemma urlencoded_char_shape (c : ascii) : shape c = true.
Proof. revert c. apply all_ascii. vm_compute. reflexivity. Qed.

Lemma urldecoded_char (c : ascii) (rest : string) :
  urldecoded (urlencoded_char c ++ rest) = String c (urldecoded rest).
Proof.
  pose proof (urlencoded_char_shape c) as H. unfold shape in H.
  apply orb_true_iff in H as [H|H]; [apply orb_true_iff in H as [H|H]|].
  - apply andb_true_iff in H as [Hc He].
    apply Ascii.eqb_eq in Hc as ->. apply String.eqb_eq in He as ->. reflexivity.
  - apply andb_true_iff in H as [H Hpc]. apply andb_true_iff in H as [He Hpl].
    apply String.eqb_eq in He as ->. simpl.
    apply negb_true_iff in Hpl, Hpc. by rewrite Hpl, Hpc.
  - destruct (urlencoded_char c) as [|p [|a [|b [|]]]]; try discriminate.
    apply andb_true_iff in H as [Hp Hc].
    apply Ascii.eqb_eq in Hp as ->. apply Ascii.eqb_eq in Hc.
    rewrite <- Hc at 1. reflexivity.
Qed.

Lemma urldecoded_urlencoded (s : string) : urldecoded (urlencoded s) = s.
Proof.
  induction s as [|c s IH]; [done|].
  change (urlencoded (String c s)) with (urlencoded_char c ++ urlencoded s).
  by rewrite urldecoded_char, IH.
Qed.

Lemma safe_not_separator (x : ascii) : safe x = true -> x <> "="%char /\ x <> "&"%char.
Proof. intros Hx. split; intros ->; discriminate Hx. Qed.

Lemma urlencoded_no_separator (s : string) (x : ascii) :
  x = "="%char \/ x = "&"%char -> x ∉ chars (urlencoded s).
Proof.
  intros Hx Hin. pose proof (urlencoded_safe s) as Hs.
  apply list_elem_of_In in Hin.
  apply (proj1 (forallb_forall _ _) Hs), safe_not_separator in Hin.
  destruct Hx; tauto.
Qed.

(** Text is cut at the first separator in one way only. *)
Lemma cut_unique (x : ascii) (l1 l2 r1 r2 : list ascii) :
  x ∉ l1 -> x ∉ l2 -> (l1 ++ x :: r1 = l2 ++ x :: r2)%list -> l1 = l2 /\ r1 = r2.
Proof.
  revert l2. induction l1 as [|a l1 IH]; intros [|b l2] H1 H2 Heq; simpl in Heq.
  - by injection Heq as ->.
  - injection Heq as -> _. exfalso. apply H2. apply list_elem_of_here.
  - injection Heq as -> _. exfalso. apply H1. apply list_elem_of_here.
  - injection Heq as -> Heq. apply not_elem_of_cons in H1 as [_ H1].
    apply not_elem_of_cons in H2 as [_ H2].
    destruct (IH l2 H1 H2 Heq) as [-> ->]. done.
Qed.

Lemma pair_chars_inj (p q : string * string) (r1 r2 : list ascii) :
  (r1 = [] \/ exists t, r1 = "&"%char :: t) ->
  (r2 = [] \/ exists t, r2 = "&"%char :: t) ->
  (pair_chars p ++ r1 = pair_chars q ++ r2)%list -> p = q /\ r1 = r2.
Proof.
  destruct p as [k1 v1], q as [k2 v2]. unfold pair_chars; cbn [fst snd].
  intros Hr1 Hr2 Heq. rewrite <- !app_assoc in Heq. cbn [app] in Heq.
  apply cut_unique in Heq as [Hk Heq];
    [|apply urlencoded_no_separator; tauto|apply urlencoded_no_separator; tauto].
  assert (Hv1 : "&"%char ∉ chars (urlencoded v1)) by (apply urlencoded_no_separator; tauto).
  assert (Hv2 : "&"%char ∉ chars (urlencoded v2)) by (apply urlencoded_no_separator; tauto).
  assert (Hv : chars (urlencoded v1) = chars (urlencoded v2) /\ r1 = r2).
  { destruct Hr1 as [->|[t1 ->]], Hr2 as [->|[t2 ->]].
    - rewrite !app_nil_r in Heq. done.
    - exfalso. apply Hv1. rewrite app_nil_r in Heq. rewrite Heq.
      apply elem_of_app. right. apply list_elem_of_here.
    - exfalso. apply Hv2. rewrite app_nil_r in Heq. rewrite <- Heq.
      apply elem_of_app. right. apply list_elem_of_here.
    - apply cut_unique in Heq as [-> ->]; done. }
  destruct Hv as [Hv ->]. split; [|done].
  apply chars_inj in Hk, Hv.
  apply (f_equal urldecoded) in Hk, Hv. rewrite !urldecoded_urlencoded in Hk, Hv.
  by subst.
Qed.

Lemma toString_chars (p : string * string) (params : URLSearchParams.t) :
  chars (URLSearchParams.toString (p :: params))
  = (pair_chars p ++ match params with
                     | [] => []
                     | _ => "&"%char :: chars (URLSearchParams.toString params)
                     end)%list.
Proof.
  unfold URLSearchParams.toString, pair_chars.
  destruct params as [|q params]; cbn [map String.concat].
  - rewrite !chars_app, app_nil_r. done.
  - rewrite !chars_app. cbn [chars app]. by rewrite <- !app_assoc.
Qed.

Lemma toString_inj (params1 params2 : URLSearchParams.t) :
  URLSearchParams.toString params1 = URLSearchParams.toString params2 ->
  params1 = params2.
Proof.
  revert params2. induction params1 as [|p ps1 IH]; intros [|q ps2] Heq.
  - done.
  - apply (f_equal chars) in Heq. rewrite toString_chars in Heq.
    destruct q; discriminate Heq || (unfold pair_chars in Heq; simpl in Heq;
      destruct (chars (urlencoded s)); discriminate Heq).
  - apply (f_equal chars) in Heq. rewrite toString_chars in Heq.
    destruct p; unfold pair_chars in Heq; simpl in Heq;
      destruct (chars (urlencoded s)); discriminate Heq.
  - apply (f_equal chars) in Heq. rewrite !toString_chars in Heq.
    apply pair_chars_inj in Heq as [-> Hrest].
    + f_equal. destruct ps1 as [|p1 ps1], ps2 as [|p2 ps2]; try done.
      apply IH. apply chars_inj. by injection Hrest.
    + destruct ps1; eauto.
    + destruct ps2; eauto.
Qed.

Lemma cacheKey_inj (u1 u2 : string) (o1 o2 : Options) :
  cachedApi.cacheKey u1 o1 = cachedApi.cacheKey u2 o2 ->
  u1 = u2 /\ cachedApi.JSON_stringify o1 = cachedApi.JSON_stringify o2.
Proof.
  unfold cachedApi.cacheKey, cachedApi.JSON_stringify. intros Heq.
  apply (f_equal chars) in Heq. rewrite !chars_app in Heq.
  destruct (signal o1), (signal o2).
  - apply app_inv_tail in Heq. split; [by apply chars_inj|done].
  - apply (f_equal (@rev ascii)) in Heq. rewrite !rev_app_distr in Heq.
    vm_compute in Heq. discriminate Heq.
  - apply (f_equal (@rev ascii)) in Heq. rewrite !rev_app_distr in Heq.
    vm_compute in Heq. discriminate Heq.
  - apply app_inv_tail in Heq. split; [by apply chars_inj|done].
Qed.

End Encoding.


(** X1.  The URL determines the parameters.  Two filter objects for which
    [fetchMovies] (or [fetchSeries]) builds the same URL have the same list
    of query parameters, names and values: the encoding loses nothing.  So a
    cache entry, whose key contains the URL, is only ever read back for the
    parameters it was stored for. *)
Theorem request_url_determines_params (filters1 filters2 : Filters) :
  (useMovies.request_url filters1 = useMovies.request_url filters2 ->
   useMovies.params filters1 = useMovies.params filters2)
  /\ (useSeries.request_url filters1 = useSeries.request_url filters2 ->
      useSeries.params filters1 = useSeries.params filters2)
  /\ (forall o1 o2,
        cachedApi.cacheKey (useMovies.request_url filters1) o1
        = cachedApi.cacheKey (useMovies.request_url filters2) o2 ->
        useMovies.params filters1 = useMovies.params filters2).
Proof.
  assert (Hmovies : useMovies.request_url filters1 = useMovies.request_url filters2 ->
                    useMovies.params filters1 = useMovies.params filters2).
  { unfold useMovies.request_url. intros Heq. apply toString_inj. by simplify_eq/=. }
  split; [exact Hmovies|]. split.
  - unfold useSeries.request_url. intros Heq. apply toString_inj. by simplify_eq/=.
  - intros o1 o2 Heq. apply cacheKey_inj in Heq as [Heq _]. by apply Hmovies.
Qed.

Lemma request_url_determines_params_witness :
  useMovies.params [("genre", JStr "drama"); ("q", JStr "")]
  = useMovies.params [("year", JNull); ("genre", JStr "drama")].
Proof.
  apply (proj1 (request_url_determines_params
                  [("genre", JStr "drama"); ("q", JStr "")]
                  [("year", JNull); ("genre", JStr "drama")])).
  reflexivity.
Defined.

(** ** The cache over time *)

Lemma cached_elapse_None (h : Host) (key : string) (ms : Z) :
  cachedApi.cached h key = None -> (0 <= ms)%Z ->
  cachedApi.cached (elapse ms h) key = None.
Proof.
  unfold cachedApi.cached, elapse; simpl.
  destruct (cache h !! key) as [e|]; [|done]. intros Hstale Hms.
  repeat case_bool_decide; try done. lia.
Qed.

(** X2.  No negative caching.  When [cachedApi.get] finds no fresh entry and
    its network call fails, [get] throws the error of the call and the cache
    is as it was; a retry with the same URL and options, at any later time,
    goes to the network again. *)
Theorem failed_request_is_not_cached
    (u : string) (o : Options) (h : Host) (err : JsVal) (ms : Z) :
  cachedApi.cached h (cachedApi.cacheKey u o) = None ->
  (0 <= ms)%Z ->
  let key := cachedApi.cacheKey u o in
  let h1 := remove_request (issued h) (snd (cachedApi.get u o h)) in
  let failed := cachedApi.get_settled key (Rejected err) h1 in
  let h2 := elapse ms (snd failed) in
  fst failed = Throw err
  /\ cache (snd failed) = cache h
  /\ cachedApi.get u o h2 = (None, api_get u o (Some key) h2).
Proof.
  intros Hmiss Hms key h1 failed h2. subst failed h2 h1.
  rewrite (get_miss u o h Hmiss). cbn [fst snd cachedApi.get_settled].
  split; [reflexivity|]. split; [reflexivity|].
  apply get_miss. apply cached_elapse_None; [|done]. exact Hmiss.
Qed.

Lemma failed_request_is_not_cached_witness :
  let u := "/movies?limit=12" in
  let o := {| signal := Some 0 |} in
  let key := cachedApi.cacheKey u o in
  let h1 := remove_request 0 (snd (cachedApi.get u o fresh_host)) in
  let h2 := elapse 1000 (snd (cachedApi.get_settled key
                                 (Rejected (mkError "AxiosError" "timeout")) h1)) in
  cachedApi.get u o h2 = (None, api_get u o (Some key) h2).
Proof.
  intros u o key h1 h2.
  refine (proj2 (proj2 (failed_request_is_not_cached u o fresh_host
                          (mkError "AxiosError" "timeout") 1000 _ _)));
    [reflexivity | lia].
Defined.

(** X3.  When the network call of [cachedApi.get] resolves, the data of the
    response can be read back under the key of the call at once (last writer
    wins), and the entry of every other key, the clock, the requests in
    flight and the timers are untouched. *)
Theorem cache_store_touches_one_key
    (key : string) (response d : JsVal) (h : Host) :
  Get response "data" = Normal d ->
  let h' := snd (cachedApi.get_settled key (Resolved response) h) in
  cachedApi.cached h' key = Some d
  /\ (forall key', key' <> key -> cache h' !! key' = cache h !! key')
  /\ now h' = now h /\ network h' = network h /\ timers h' = timers h.
Proof.
  intros Hd h'. subst h'. rewrite (get_settled_resolved key response d h Hd).
  cbn [snd]. split; [|split; [|done]].
  - unfold cachedApi.cached. cbn [cache set_cache now].
    rewrite lookup_insert_eq. cbn [timestamp data].
    rewrite bool_decide_true by lia. done.
  - intros key' Hne. cbn [cache set_cache]. by rewrite lookup_insert_ne.
Qed.

Lemma cache_store_touches_one_key_witness :
  let body := JObj [("movies", JArr [])] in
  let h := snd (cachedApi.get_settled "a" (Resolved (JObj [("data", JStr "old")]))
                                      fresh_host) in
  let h' := snd (cachedApi.get_settled "b" (Resolved (JObj [("data", body)])) h) in
  cachedApi.cached h' "b" = Some body /\ cache h' !! "a" = cache h !! "a".
Proof.
  intros body h h'.
  destruct (cache_store_touches_one_key "b" (JObj [("data", body)]) body h)
    as (Hb & Hother & _); [reflexivity|].
  split; [exact Hb | apply Hother; discriminate].
Defined.

(** ** What a block of code leaves alone *)

Section Preserves.

Context {St X : Type} (f : St -> X).

Lemma preserves_ret {A} (a : A) : preserves f (ret a).
Proof. by intros s. Qed.

Lemma preserves_throw {A} (e : JsVal) : preserves f (throw (A := A) e).
Proof. by intros s. Qed.

Lemma preserves_lift {A} (c : Completion A) : preserves f (lift c).
Proof. by intros s. Qed.

Lemma preserves_await (o : Outcome) : preserves f (await o).
Proof. by destruct o. Qed.

Lemma preserves_modify (g : St -> St) : (forall s, f (g s) = f s) -> preserves f (modify g).
Proof. intros Hg s. apply Hg. Qed.

Lemma preserves_mbind {A B} (m : Js St A) (k : A -> Js St B) :
  preserves f m -> (forall a, preserves f (k a)) -> preserves f (m ≫= k).
Proof.
  intros Hm Hk s. unfold mbind, Js_bind, bind. specialize (Hm s).
  destruct (m s) as [[a|e] s']; cbn [snd] in *; [|done]. by rewrite Hk.
Qed.

Lemma preserves_try_catch {A} (body : Js St A) (handler : JsVal -> Js St A) :
  preserves f body -> (forall e, preserves f (handler e)) ->
  preserves f (try_catch body handler).
Proof.
  intros Hb Hh s. unfold try_catch. specialize (Hb s).
  destruct (body s) as [[a|e] s']; cbn [snd] in *; [done|]. by rewrite Hh.
Qed.

Lemma preserves_try_finally {A} (body : Js St A) (fin : Js St unit) :
  preserves f body -> preserves f fin -> preserves f (try_finally body fin).
Proof.
  intros Hb Hf s. unfold try_finally. specialize (Hb s).
  destruct (body s) as [c s']; cbn [snd] in *. specialize (Hf s').
  destruct (fin s') as [[u|e] s'']; cbn [snd] in *; congruence.
Qed.

Lemma preserves_error_message (err : JsVal) (fallback : string) :
  preserves f (error_message err fallback).
Proof.
  unfold error_message.
  repeat (apply preserves_mbind; [apply preserves_lift|intros ?]). apply preserves_ret.
Qed.

End Preserves.

Ltac preserve :=
  repeat first
    [ apply preserves_try_finally
    | apply preserves_try_catch
    | apply preserves_mbind
    | apply preserves_lift
    | apply preserves_await
    | apply preserves_ret
    | apply preserves_throw
    | apply preserves_error_message
    | apply preserves_modify; intros ?; reflexivity
    | progress intros
    | match goal with |- preserves _ (if ?b then _ else _) => destruct b end ].

Section UseMoviesRuns.

Import useMovies.

Implicit Types (w : World State) (st : State) (h : Host) (filters : Filters).

Lemma fetchMovies_settled_keeps_fetchTimeoutRef got :
  preserves fetchTimeoutRef (fetchMovies_settled got).
Proof. unfold fetchMovies_settled. preserve. Qed.

Lemma fetchMovies_settled_keeps_isInitialLoadRef got :
  preserves isInitialLoadRef (fetchMovies_settled got).
Proof. unfold fetchMovies_settled. preserve. Qed.

Lemma get_settled_keeps {X} (f : Host -> X) key o :
  (forall c h, f (set_cache c h) = f h) -> preserves f (cachedApi.get_settled key o).
Proof.
  intros Hf. unfold cachedApi.get_settled.
  apply preserves_mbind; [apply preserves_await|intros response].
  apply preserves_mbind; [apply preserves_lift|intros d].
  apply preserves_mbind; [apply preserves_modify; intros h; apply Hf|intros _].
  apply preserves_ret.
Qed.

(** What [fetchMovies] leaves alone: the timers, the clock, the cache and
    the two refs it does not use. *)
Lemma fetchMovies_frame filters isInitial w :
  let w' := fetchMovies filters isInitial w in
  timers (host w') = timers (host w)
  /\ timer_ids (host w') = timer_ids (host w)
  /\ now (host w') = now (host w)
  /\ cache (host w') = cache (host w)
  /\ fetchTimeoutRef (hook w') = fetchTimeoutRef (hook w)
  /\ isInitialLoadRef (hook w') = isInitialLoadRef (hook w).
Proof.
  unfold fetchMovies.
  destruct (abortControllerRef (hook w)); cbn [on_host host hook new_controller];
    unfold cachedApi.get;
    match goal with |- context [cachedApi.cached ?h ?k] => destruct (cachedApi.cached h k) end;
    cbn [host hook]; rewrite ?fetchMovies_settled_keeps_fetchTimeoutRef,
                       ?fetchMovies_settled_keeps_isInitialLoadRef;
    destruct isInitial; done.
Qed.

Lemma settle_frame id o w :
  let w' := settle id o w in
  timers (host w') = timers (host w)
  /\ timer_ids (host w') = timer_ids (host w)
  /\ now (host w') = now (host w)
  /\ fetchTimeoutRef (hook w') = fetchTimeoutRef (hook w)
  /\ isInitialLoadRef (hook w') = isInitialLoadRef (hook w).
Proof.
  unfold settle. destruct (find_request id (host w)) as [r|]; [|done].
  pose proof (get_settled_keeps timers (default "" (cache_key r)) o (fun _ _ => eq_refl)
                (remove_request id (host w))) as Ht.
  pose proof (get_settled_keeps timer_ids (default "" (cache_key r)) o (fun _ _ => eq_refl)
                (remove_request id (host w))) as Hi.
  pose proof (get_settled_keeps now (default "" (cache_key r)) o (fun _ _ => eq_refl)
                (remove_request id (host w))) as Hn.
  destruct (cachedApi.get_settled _ o _) as [got h']. cbn [snd host hook] in *.
  rewrite fetchMovies_settled_keeps_fetchTimeoutRef,
    fetchMovies_settled_keeps_isInitialLoadRef. done.
Qed.

(** The cleanup clears the pending timer and sends nothing. *)
Lemma cleanup_frame w :
  one_timer w ->
  timers (host (cleanup w)) = []
  /\ hook (cleanup w) = hook w
  /\ timer_ids (host (cleanup w)) = timer_ids (host w)
  /\ now (host (cleanup w)) = now (host w)
  /\ cache (host (cleanup w)) = cache (host w)
  /\ network (host (cleanup w)) = network (host w)
  /\ issued (host (cleanup w)) = issued (host w)
  /\ controllers (host (cleanup w)) = controllers (host w).
Proof.
  intros Hone. destruct w as [[ms ld er pg dl ftr acr iil] h].
  unfold cleanup, one_timer in *. cbn [hook host] in *.
  destruct Hone as [Hnil|(t & Ht & Href)].
  - destruct ftr as [t|], acr as [c|]; cbn; rewrite ?Hnil; cbn; done.
  - cbn in Href. subst ftr.
    destruct acr as [c|]; cbn; rewrite ?Ht; cbn;
      rewrite ?decide_False by (intros Hne; by apply Hne); cbn; done.
Qed.

(** After the first run, the effect replaces the pending timer by one for
    the new filters and sends nothing. *)
Lemma filter_change_effect w filters :
  isInitialLoadRef (hook w) = false -> one_timer w ->
  let w' := effect filters w in
  timers (host w')
  = [{| tid := timer_ids (host w); due := (now (host w) + 150)%Z;
        callback := CbFetchMovies filters |}]
  /\ fetchTimeoutRef (hook w') = Some (timer_ids (host w))
  /\ isInitialLoadRef (hook w') = false
  /\ timer_ids (host w') = S (timer_ids (host w))
  /\ now (host w') = now (host w)
  /\ cache (host w') = cache (host w)
  /\ network (host w') = network (host w)
  /\ issued (host w') = issued (host w)
  /\ controllers (host w') = controllers (host w)
  /\ abortControllerRef (hook w') = abortControllerRef (hook w).
Proof.
  intros Hinit Hone. destruct w as [[ms ld er pg dl ftr acr iil] h].
  unfold effect, one_timer in *. cbn [hook host] in *.
  cbn in Hinit. subst iil.
  destruct Hone as [Hnil|(t & Ht & Href)].
  - destruct ftr as [t|]; cbn; rewrite ?Hnil; cbn; done.
  - cbn in Href. subst ftr. cbn; rewrite ?Ht; cbn;
      rewrite ?decide_False by (intros Hne; by apply Hne); cbn; done.
Qed.

Lemma one_timer_step w e :
  isInitialLoadRef (hook w) = false -> one_timer w ->
  isInitialLoadRef (hook (step w e)) = false /\ one_timer (step w e).
Proof.
  intros Hinit Hone.
  destruct e as [filters| |id|filters|id o|ms]; cbn [step].
  - destruct (filter_change_effect w filters Hinit Hone) as (Ht & Hr & Hi & _).
    split; [exact Hi|]. right. eexists. split; [exact Ht|exact Hr].
  - destruct (cleanup_frame w Hone) as (Ht & Hi & _).
    split; [by rewrite Hi|]. by left.
  - unfold timeout.
    destruct (List.find _ (timers (host w))) as [t|] eqn:Hfind; [|done].
    case_bool_decide; [|done].
    assert (Hgone : timers (host (on_host (clearTimeout id) w)) = []).
    { destruct Hone as [Hnil|(t' & Ht & Href)]; [by rewrite Hnil in Hfind|].
      cbn. rewrite Ht in *. cbn in Hfind.
      destruct (Nat.eqb_spec (tid t') id) as [Heq|]; [|done].
      cbn. by rewrite decide_False by (intros Hne; by apply Hne). }
    destruct (callback t) as [filters|query].
    + destruct (fetchMovies_frame filters false (on_host (clearTimeout id) w))
        as (Ht & _ & _ & _ & _ & Hi).
      split; [by rewrite Hi|]. left. by rewrite Ht.
    + split; [exact Hinit|]. by left.
  - destruct (fetchMovies_frame filters false w) as (Ht & _ & _ & _ & Hr & Hi).
    split; [by rewrite Hi|]. unfold one_timer. by rewrite Ht, Hr.
  - destruct (settle_frame id o w) as (Ht & _ & _ & Hr & Hi).
    split; [by rewrite Hi|]. unfold one_timer. by rewrite Ht, Hr.
  - done.
Qed.

Lemma one_timer_run events w :
  isInitialLoadRef (hook w) = false -> one_timer w ->
  isInitialLoadRef (hook (run w events)) = false /\ one_timer (run w events).
Proof.
  revert w. induction events as [|e events IH]; intros w Hinit Hone; [done|].
  cbn [run fold_left]. destruct (one_timer_step w e Hinit Hone) as [Hinit' Hone'].
  by apply IH.
Qed.

Lemma mount_one_timer filters h :
  timers h = [] ->
  isInitialLoadRef (hook (mount filters h)) = false /\ one_timer (mount filters h).
Proof.
  intros Hnil. unfold mount, effect. cbn [hook initial isInitialLoadRef].
  destruct (fetchMovies_frame filters true {| hook := initial; host := h |})
    as (Ht & _). split; [done|]. left. unfold on_hook. cbn [host]. by rewrite Ht.
Qed.

End UseMoviesRuns.

(** X5.  One debounce timer per instance.  Whatever happens to a mounted
    [useMovies] (renders, cleanups, timers firing, [refetch], responses, time
    passing), at most one of its timers is pending; and
    [isInitialLoadRef.current] stays false, so no later effect fetches
    without the debounce. *)
Theorem useMovies_at_most_one_timer
    (filters : Filters) (h : Host) (events : list useMovies.Event) :
  timers h = [] ->
  let w := useMovies.run (useMovies.mount filters h) events in
  length (timers (host w)) <= 1
  /\ useMovies.isInitialLoadRef (hook w) = false.
Proof.
  intros Hnil w. subst w.
  destruct (mount_one_timer filters h Hnil) as [Hinit Hone].
  destruct (one_timer_run events _ Hinit Hone) as [Hinit' [Hone'|(t & Hone' & _)]];
    rewrite Hone'; cbn; split; (lia || done).
Qed.

Lemma useMovies_at_most_one_timer_witness :
  let w := useMovies.run (useMovies.mount [] fresh_host)
             [useMovies.Cleanup; useMovies.Effect [("genre", JStr "drama")];
              useMovies.Elapse 50;
              useMovies.Cleanup; useMovies.Effect [("genre", JStr "horror")]] in
  length (timers (host w)) <= 1.
Proof.
  intros w.
  apply (useMovies_at_most_one_timer [] fresh_host
           [useMovies.Cleanup; useMovies.Effect [("genre", JStr "drama")];
            useMovies.Elapse 50;
            useMovies.Cleanup; useMovies.Effect [("genre", JStr "horror")]]).
  reflexivity.
Defined.

(** X6.  Rapid filter changes coalesce.  After the mount, any burst of
    filter changes (each one the cleanup of the previous effect, then the
    effect) leaves exactly one timer pending: for the last filters, due
    150 ms from now; and no request has been sent. *)
Theorem useMovies_debounce_last_filter
    (w : World useMovies.State) (earlier : list Filters) (last : Filters) :
  useMovies.isInitialLoadRef (hook w) = false ->
  one_timer w ->
  let changes := flat_map (fun filters => [useMovies.Cleanup; useMovies.Effect filters])
                          (earlier ++ [last]) in
  let w' := useMovies.run w changes in
  map callback (timers (host w')) = [CbFetchMovies last]
  /\ map due (timers (host w')) = [(now (host w) + 150)%Z]
  /\ network (host w') = network (host w)
  /\ issued (host w') = issued (host w).
Proof.
  revert w. induction earlier as [|filters earlier IH]; intros w Hinit Hone; cbn zeta.
  - cbn [app flat_map useMovies.run fold_left useMovies.step].
    destruct (cleanup_frame w Hone) as (Ht & Hh & _ & Hn & _ & Hnet & Hiss & _).
    destruct (filter_change_effect (useMovies.cleanup w) last) as
      (Ht' & _ & _ & _ & Hn' & _ & Hnet' & Hiss' & _);
      [by rewrite Hh | by left |].
    rewrite Ht', Hnet', Hiss', Hn, Hnet, Hiss. done.
  - cbn [app flat_map useMovies.run fold_left useMovies.step].
    destruct (cleanup_frame w Hone) as (Ht & Hh & _ & Hn & _ & Hnet & Hiss & _).
    destruct (filter_change_effect (useMovies.cleanup w) filters) as
      (Ht' & Hr' & Hi' & _ & Hn' & _ & Hnet' & Hiss' & _);
      [by rewrite Hh | by left |].
    specialize (IH (useMovies.effect filters (useMovies.cleanup w)) Hi').
    cbn zeta in IH. unfold useMovies.run in IH.
    destruct IH as (Hc & Hd & Hnw & Hi); [right; eexists; split; [exact Ht'|exact Hr']|].
    rewrite Hc, Hd, Hnw, Hi, Hn', Hnet', Hiss', Hn, Hnet, Hiss. done.
Qed.

Lemma useMovies_debounce_last_filter_witness :
  let w := useMovies.mount [] fresh_host in
  let w' := useMovies.run w
              [useMovies.Cleanup; useMovies.Effect [("q", JStr "h")];
               useMovies.Cleanup; useMovies.Effect [("q", JStr "he")];
               useMovies.Cleanup; useMovies.Effect [("q", JStr "hea")]] in
  map callback (timers (host w')) = [CbFetchMovies [("q", JStr "hea")]]
  /\ map url (network (host w')) = ["/movies?limit=12"].
Proof.
  intros w w'.
  destruct (useMovies_debounce_last_filter w
              [[("q", JStr "h")]; [("q", JStr "he")]] [("q", JStr "hea")])
    as (Hc & _ & Hnet & _); [reflexivity | by left |].
  split; [exact Hc|]. subst w'. cbn [app flat_map] in Hnet. rewrite Hnet. reflexivity.
Defined.

Section UseMoviesFetch.

Import useMovies.

Implicit Types (w : World State) (h : Host) (filters : Filters).

Lemma cached_frame h h' key :
  cache h' = cache h -> now h' = now h -> cachedApi.cached h' key = cachedApi.cached h key.
Proof. unfold cachedApi.cached. by intros -> ->. Qed.

(** A fetch that the cache does not answer sends one request, for the URL
    of its filters, with the signal of a new controller. *)
Lemma fetchMovies_miss filters isInitial w c :
  cachedApi.cached (host w) (cachedApi.cacheKey (request_url filters) {| signal := Some c |})
  = None ->
  let w' := fetchMovies filters isInitial w in
  network (host w')
  = (network (host w)
       ++ [{| rid := issued (host w); url := request_url filters;
              req_signal := Some (controllers (host w));
              cache_key := Some (cachedApi.cacheKey (request_url filters)
                                                    {| signal := Some c |}) |}])%list
  /\ abortControllerRef (hook w') = Some (controllers (host w))
  /\ movies (hook w') = movies (hook w)
  /\ error (hook w') = error (hook w)
  /\ loading (hook w') = (isInitial || loading (hook w)).
Proof.
  intros Hmiss. destruct w as [st h]. unfold fetchMovies. cbn [hook host] in *.
  destruct (abortControllerRef st) as [c0|]; cbn [on_host host hook new_controller];
    unfold cachedApi.get;
    match goal with
    | |- context [cachedApi.cached ?h' ?k] =>
        replace (cachedApi.cached h' k) with (@None JsVal)
          by (symmetry; etrans; [|exact Hmiss]; by apply cached_frame)
    end; destruct isInitial; cbn; done.
Qed.

End UseMoviesFetch.

(** X7.  The debounced fetch.  After a filter change, the timer does
    nothing before 150 ms have passed; once they have, it is removed and,
    unless the cache answers, one request goes out for the URL of the new
    filters. *)
Theorem useMovies_debounced_fetch_fires
    (w : World useMovies.State) (filters : Filters) (ms : Z) :
  useMovies.isInitialLoadRef (hook w) = false ->
  one_timer w ->
  let t := timer_ids (host w) in
  let w1 := on_host (elapse ms) (useMovies.effect filters (useMovies.cleanup w)) in
  let w2 := useMovies.timeout t w1 in
  ((ms < 150)%Z -> w2 = w1)
  /\ ((150 <= ms)%Z ->
      cachedApi.cached (host w1)
        (cachedApi.cacheKey (useMovies.request_url filters) {| signal := Some 0 |}) = None ->
      map url (network (host w2))
      = (map url (network (host w)) ++ [useMovies.request_url filters])%list
      /\ timers (host w2) = []).
Proof.
  intros Hinit Hone t w1 w2.
  destruct (cleanup_frame w Hone) as (Ht & Hh & Hid & Hn & _ & Hnet & _).
  destruct (filter_change_effect (useMovies.cleanup w) filters) as
    (Ht' & _ & _ & _ & Hn' & _ & Hnet' & _); [by rewrite Hh | by left |].
  assert (Htimers : timers (host w1)
                    = [{| tid := t; due := (now (host w) + 150)%Z;
                          callback := CbFetchMovies filters |}]).
  { subst w1. cbn [on_host host elapse timers]. rewrite Ht', Hid, Hn. done. }
  assert (Hnow : now (host w1) = (now (host w) + ms)%Z).
  { subst w1. cbn [on_host host elapse now]. by rewrite Hn', Hn. }
  assert (Hnetwork : network (host w1) = network (host w)).
  { subst w1. cbn [on_host host elapse network]. by rewrite Hnet', Hnet. }
  subst w2. unfold useMovies.timeout. rewrite Htimers. cbn [List.find tid].
  rewrite Nat.eqb_refl. cbn [due callback]. rewrite Hnow. split.
  - intros Hms. by rewrite bool_decide_false by lia.
  - intros Hms Hmiss. rewrite bool_decide_true by lia.
    destruct (fetchMovies_miss filters false (on_host (clearTimeout t) w1) 0)
      as (Hsent & _); [exact Hmiss|].
    rewrite Hsent. cbn [on_host host clearTimeout set_timers network].
    rewrite Hnetwork, map_app. split; [done|].
    destruct (fetchMovies_frame filters false (on_host (clearTimeout t) w1)) as (Hkeep & _).
    rewrite Hkeep. cbn [on_host host clearTimeout set_timers timers]. rewrite Htimers.
    cbn. by rewrite decide_False by (intros Hne; by apply Hne).
Qed.

Lemma useMovies_debounced_fetch_fires_witness :
  let w := useMovies.mount [] fresh_host in
  let w1 := on_host (elapse 150)
              (useMovies.effect [("genre", JStr "drama")] (useMovies.cleanup w)) in
  map url (network (host (useMovies.timeout 0 w1)))
  = ["/movies?limit=12"; "/movies?genre=drama&limit=12"].
Proof.
  intros w w1.
  destruct (useMovies_debounced_fetch_fires w [("genre", JStr "drama")] 150)
    as (_ & Hfire); [reflexivity | by left |].
  destruct Hfire as (Hsent & _); [lia | reflexivity |]. exact Hsent.
Defined.

Section UseMoviesCache.

Import useMovies.

Implicit Types (w : World State) (h : Host) (filters : Filters).

Lemma get_settled_cache_mono key o h k :
  is_Some (cache h !! k) -> is_Some (cache (snd (cachedApi.get_settled key o h)) !! k).
Proof.
  intros Hk. destruct o as [response|err]; [|done].
  unfold cachedApi.get_settled, mbind, Js_bind, bind, await, ret, lift, modify.
  destruct (Get response "data") as [d|e]; [|done].
  cbn [snd cache set_cache]. rewrite lookup_insert_is_Some.
  destruct (decide (key = k)); auto.
Qed.

Lemma step_cache_mono w e k :
  is_Some (cache (host w) !! k) -> is_Some (cache (host (step w e)) !! k).
Proof.
  intros Hk. destruct e as [filters| |id|filters|id o|ms]; cbn [step].
  - unfold effect. destruct (isInitialLoadRef (hook w)).
    + destruct (fetchMovies_frame filters true w) as (_ & _ & _ & Hc & _).
      unfold on_hook. cbn [host]. by rewrite Hc.
    + by destruct (fetchTimeoutRef (hook w)).
  - destruct w as [st h]. unfold cleanup. cbn [hook host] in *.
    destruct (fetchTimeoutRef st); cbn [on_host hook host];
      destruct (abortControllerRef st); exact Hk.
  - unfold timeout. destruct (List.find _ _) as [t|]; [|done].
    case_bool_decide; [|done]. destruct (callback t) as [filters|query]; [|done].
    destruct (fetchMovies_frame filters false (on_host (clearTimeout id) w))
      as (_ & _ & _ & Hc & _). by rewrite Hc.
  - destruct (fetchMovies_frame filters false w) as (_ & _ & _ & Hc & _). by rewrite Hc.
  - unfold settle. destruct (find_request id (host w)) as [r|]; [|done].
    pose proof (get_settled_cache_mono (default "" (cache_key r)) o
                  (remove_request id (host w)) k Hk) as Hmono.
    destruct (cachedApi.get_settled _ o _) as [got h']. exact Hmono.
  - done.
Qed.

End UseMoviesCache.

(** X4.  The cache only grows.  Whatever happens to a [useMovies]
    instance, a key that has an entry in the cache keeps one: entries are
    overwritten, never removed, also when they are stale. *)
Theorem cache_entries_are_never_removed
    (w : World useMovies.State) (events : list useMovies.Event) (key : string) :
  is_Some (cache (host w) !! key) ->
  is_Some (cache (host (useMovies.run w events)) !! key).
Proof.
  revert w. induction events as [|e events IH]; intros w Hkey; [done|].
  cbn [useMovies.run fold_left]. apply IH. by apply step_cache_mono.
Qed.

Lemma cache_entries_are_never_removed_witness :
  let body := JObj [("movies", JArr []); ("total", JNum 0); ("page", JNum 1);
                    ("pages", JNum 0)] in
  let w := useMovies.run (useMovies.mount [] fresh_host)
             [useMovies.Settle 0 (Resolved (JObj [("data", body)]))] in
  let key := cachedApi.cacheKey "/movies?limit=12" {| signal := Some 0 |} in
  is_Some (cache (host (useMovies.run w [useMovies.Elapse 600000;
                                          useMovies.Refetch [("genre", JStr "drama")]]))
             !! key).
Proof.
  intros body w key. apply cache_entries_are_never_removed.
  exists {| data := body; timestamp := 0 |}. vm_compute. reflexivity.
Defined.

(** X8.  A fetch aborts the request it tracks.  When
    [abortControllerRef.current] holds a controller, every request in flight
    with the signal of that controller is aborted by the next [fetchMovies]:
    it is not among the live requests afterwards. *)
Theorem useMovies_fetch_aborts_tracked_request
    (w : World useMovies.State) (filters : Filters) (isInitial : bool)
    (c : nat) (r : Request) :
  useMovies.abortControllerRef (hook w) = Some c ->
  req_signal r = Some c ->
  r ∉ live (host (useMovies.fetchMovies filters isInitial w)).
Proof.
  intros Href Hsig Hlive. unfold live in Hlive.
  apply list_elem_of_filter in Hlive as [Hnot _].
  pose proof (fetchMovies_aborts_ref filters isInitial w c Href) as Hab.
  unfold is_aborted in Hnot. rewrite Hsig in Hnot.
  apply list_elem_of_In in Hab.
  assert (existsb (Nat.eqb c) (aborted (host (useMovies.fetchMovies filters isInitial w)))
          = true) as Hex.
  { apply existsb_exists. exists c. split; [exact Hab|apply Nat.eqb_refl]. }
  congruence.
Qed.

Lemma useMovies_fetch_aborts_tracked_request_witness :
  let w := useMovies.mount [] fresh_host in
  live (host (useMovies.fetchMovies [("genre", JStr "drama")] false w))
  = [{| rid := 1; url := "/movies?genre=drama&limit=12"; req_signal := Some 1;
        cache_key := Some (cachedApi.cacheKey "/movies?genre=drama&limit=12"
                                              {| signal := Some 1 |}) |}]
  /\ {| rid := 0; url := "/movies?limit=12"; req_signal := Some 0;
        cache_key := Some (cachedApi.cacheKey "/movies?limit=12" {| signal := Some 0 |}) |}
     ∉ live (host (useMovies.fetchMovies [("genre", JStr "drama")] false w)).
Proof.
  intros w. split; [vm_compute; reflexivity|].
  apply (useMovies_fetch_aborts_tracked_request w [("genre", JStr "drama")] false 0);
    reflexivity.
Defined.

(** X9.  A fetch answered from the cache fails.  When the cache holds a
    fresh entry for the URL of the filters, an object without a [data]
    property (such as the [{movies, total, page, pages}] body that
    [cachedApi.get] stores), [fetchMovies] sends nothing, fails on
    [response.data.movies], and ends with error 'Failed to fetch movies',
    loading cleared, and the movies and pagination it had. *)
Theorem useMovies_fetch_from_cache_fails
    (w : World useMovies.State) (filters : Filters) (isInitial : bool)
    (c : nat) (props : list (string * JsVal)) :
  cachedApi.cached (host w)
    (cachedApi.cacheKey (useMovies.request_url filters) {| signal := Some c |})
  = Some (JObj props) ->
  own_property props "data" = None ->
  let w' := useMovies.fetchMovies filters isInitial w in
  useMovies.error (hook w') = JStr "Failed to fetch movies"
  /\ useMovies.loading (hook w') = false
  /\ useMovies.movies (hook w') = useMovies.movies (hook w)
  /\ useMovies.pagination (hook w') = useMovies.pagination (hook w)
  /\ network (host w') = network (host w)
  /\ issued (host w') = issued (host w).
Proof.
  intros Hhit Hdata. destruct w as [st h]. unfold useMovies.fetchMovies. cbn [hook host] in *.
  destruct (useMovies.abortControllerRef st) as [c0|];
    cbn [on_host host hook new_controller]; unfold cachedApi.get;
    match goal with
    | |- context [cachedApi.cached ?h' ?k] =>
        replace (cachedApi.cached h' k) with (Some (JObj props))
          by (symmetry; etrans; [|exact Hhit]; by apply cached_frame)
    end;
    unfold useMovies.fetchMovies_settled, try_finally, try_catch, error_message,
      mbind, Js_bind, bind, lift, modify, ret; cbn [Get]; rewrite Hdata;
    destruct isInitial; cbn; done.
Qed.

Lemma useMovies_fetch_from_cache_fails_witness :
  let body := [("movies", JArr [JStr "Heat"]); ("total", JNum 1); ("page", JNum 1);
               ("pages", JNum 1)] in
  let w := useMovies.run (useMovies.mount [] fresh_host)
             [useMovies.Settle 0 (Resolved (JObj [("data", JObj body)]));
              useMovies.Elapse 1000] in
  let w' := useMovies.fetchMovies [] false w in
  useMovies.error (hook w') = JStr "Failed to fetch movies"
  /\ useMovies.movies (hook w') = JArr [JStr "Heat"]
  /\ issued (host w') = 1.
Proof.
  intros body w w'.
  destruct (useMovies_fetch_from_cache_fails w [] false 0 body)
    as (He & _ & Hm & _ & _ & Hi); [vm_compute; reflexivity | reflexivity |].
  split; [exact He|]. split; [subst w'; rewrite Hm; vm_compute; reflexivity|].
  subst w'. rewrite Hi. vm_compute. reflexivity.
Defined.

(** ** How the hooks end *)

Lemma try_finally_modify {St A} (body : Js St A) (g : St -> St) (s : St) :
  try_finally body (modify g) s = (fst (body s), g (snd (body s))).
Proof. unfold try_finally, modify. by destruct (body s). Qed.

Lemma try_catch_throw {St A} (body : Js St A) (handler : JsVal -> Js St A) e s s' :
  body s = (Throw e, s') -> try_catch body handler s = handler e s'.
Proof. unfold try_catch. by intros ->. Qed.

Lemma error_message_eval {St} (err r d m : JsVal) (fallback : string) (s : St) :
  Get err "response" = Normal r ->
  GetOpt r "data" = Normal d ->
  GetOpt d "message" = Normal m ->
  error_message err fallback s = (Normal (js_or m (JStr fallback)), s).
Proof.
  intros Hr Hd Hm. unfold error_message, mbind, Js_bind, bind, lift, ret.
  by rewrite Hr, Hd, Hm.
Qed.

Lemma js_or_truthy (a b : JsVal) : ToBoolean b = true -> ToBoolean (js_or a b) = true.
Proof. unfold js_or. by destruct (ToBoolean a) eqn:Ha. Qed.

(** X10.  No stuck spinner once a request settles.  In each of the eight
    hooks the [finally] block clears loading, whatever the outcome of the
    request and whatever the [try] and [catch] blocks do (also in [useMovie],
    whose [catch] block throws). *)
Theorem loading_is_cleared_on_every_path :
  (forall got st, useMovies.loading (snd (useMovies.fetchMovies_settled got st)) = false)
  /\ (forall o st, useMovie.loading (snd (useMovie.fetchMovie_settled o st)) = false)
  /\ (forall o st,
        useRelatedMovies.loading (snd (useRelatedMovies.fetchRelated_settled o st)) = false)
  /\ (forall o st,
        useSearchSuggestions.loading
          (snd (useSearchSuggestions.fetchSuggestions_settled o st)) = false)
  /\ (forall o st,
        useCategories.loading (snd (useCategories.fetchCategories_settled o st)) = false)
  /\ (forall o st, useStats.loading (snd (useStats.fetchStats_settled o st)) = false)
  /\ (forall o st, useSeries.loading (snd (useSeries.fetchSeries_settled o st)) = false)
  /\ (forall o st,
        useSeriesDetails.loading (snd (useSeriesDetails.fetchSeries_settled o st)) = false).
Proof.
  split.
  { intros got st. unfold useMovies.fetchMovies_settled, try_finally.
    match goal with |- context [try_catch ?b ?k st] => destruct (try_catch b k st) end.
    reflexivity. }
  repeat split; intros o st;
    unfold useMovie.fetchMovie_settled, useRelatedMovies.fetchRelated_settled,
      useSearchSuggestions.fetchSuggestions_settled, useCategories.fetchCategories_settled,
      useStats.fetchStats_settled, useSeries.fetchSeries_settled,
      useSeriesDetails.fetchSeries_settled;
    rewrite try_finally_modify; reflexivity.
Qed.

(** X11.  A failure of [fetchMovies] that is not an abort keeps what was
    loaded.  The movies, the pagination and [isDataLoaded] are unchanged,
    loading is cleared, and the error becomes
    [err.response?.data?.message || 'Failed to fetch movies'], which is
    always truthy. *)
Theorem useMovies_failure_keeps_data
    (st : useMovies.State) (err name r d m : JsVal) :
  Get err "name" = Normal name ->
  strict_eq_str name "AbortError" = false ->
  Get err "response" = Normal r ->
  GetOpt r "data" = Normal d ->
  GetOpt d "message" = Normal m ->
  let st' := snd (useMovies.fetchMovies_settled (Throw err) st) in
  fst (useMovies.fetchMovies_settled (Throw err) st) = Normal tt
  /\ useMovies.error st' = js_or m (JStr "Failed to fetch movies")
  /\ ToBoolean (useMovies.error st') = true
  /\ useMovies.movies st' = useMovies.movies st
  /\ useMovies.pagination st' = useMovies.pagination st
  /\ useMovies.isDataLoaded st' = useMovies.isDataLoaded st
  /\ useMovies.loading st' = false.
Proof.
  intros Hname Habort Hr Hd Hm st'. subst st'.
  assert (Heval : useMovies.fetchMovies_settled (Throw err) st
                  = (Normal tt,
                     useMovies.set_abortControllerRef None
                       (useMovies.setLoading false
                          (useMovies.setError (js_or m (JStr "Failed to fetch movies")) st)))).
  { unfold useMovies.fetchMovies_settled, try_finally, try_catch,
      mbind, Js_bind, bind, lift, modify.
    rewrite Hname. cbv beta iota. rewrite Habort.
    rewrite (error_message_eval err r d m _ st Hr Hd Hm). reflexivity. }
  rewrite Heval. cbn. repeat split. by apply js_or_truthy.
Qed.

Lemma useMovies_failure_keeps_data_witness :
  let err := JObj [("name", JStr "AxiosError");
                   ("response", JObj [("status", JNum 500);
                                      ("data", JObj [("message", JStr "server error")])])] in
  let st := useMovies.setMovies (JArr [JStr "Heat"]) useMovies.initial in
  let st' := snd (useMovies.fetchMovies_settled (Throw err) st) in
  useMovies.error st' = JStr "server error"
  /\ useMovies.movies st' = JArr [JStr "Heat"]
  /\ useMovies.loading st' = false.
Proof.
  intros err st st'.
  destruct (useMovies_failure_keeps_data st err (JStr "AxiosError")
              (JObj [("status", JNum 500);
                     ("data", JObj [("message", JStr "server error")])])
              (JObj [("message", JStr "server error")]) (JStr "server error"))
    as (_ & He & _ & Hm & _ & _ & Hl);
    [reflexivity | reflexivity | reflexivity | reflexivity | reflexivity |].
  split; [exact He|]. split; [exact Hm | exact Hl].
Defined.

(** X12.  [useRelatedMovies], [useCategories], [useStats], [useSeries] and
    [useSeriesDetails] report a failed request: [fetch...] completes
    normally, the error becomes the message of the response body when that
    is truthy and the fallback text of the hook otherwise, loading is
    cleared and the data is left as it was. *)
Theorem failed_request_sets_error (err r d m : JsVal) :
  Get err "response" = Normal r ->
  GetOpt r "data" = Normal d ->
  GetOpt d "message" = Normal m ->
  (forall st,
      useRelatedMovies.fetchRelated_settled (Rejected err) st
      = (Normal tt,
         useRelatedMovies.setLoading false
           (useRelatedMovies.setError (js_or m (JStr "Failed to fetch related movies")) st)))
  /\ (forall st,
        useCategories.fetchCategories_settled (Rejected err) st
        = (Normal tt,
           useCategories.setLoading false
             (useCategories.setError (js_or m (JStr "Failed to fetch categories")) st)))
  /\ (forall st,
        useStats.fetchStats_settled (Rejected err) st
        = (Normal tt,
           useStats.setLoading false
             (useStats.setError (js_or m (JStr "Failed to fetch stats")) st)))
  /\ (forall st,
        useSeries.fetchSeries_settled (Rejected err) st
        = (Normal tt,
           useSeries.setLoading false
             (useSeries.setError (js_or m (JStr "Failed to fetch series")) st)))
  /\ (forall st,
        useSeriesDetails.fetchSeries_settled (Rejected err) st
        = (Normal tt,
           useSeriesDetails.setLoading false
             (useSeriesDetails.setError
                (js_or m (JStr "Failed to fetch series details")) st))).
Proof.
  intros Hr Hd Hm. repeat split; intros st;
    unfold useRelatedMovies.fetchRelated_settled, useCategories.fetchCategories_settled,
      useStats.fetchStats_settled, useSeries.fetchSeries_settled,
      useSeriesDetails.fetchSeries_settled;
    rewrite try_finally_modify;
    unfold try_catch, mbind, Js_bind, bind, await, throw, lift, modify, reference;
    cbv beta iota; rewrite ?Hr;
    try (change (declared useSeriesDetails.catch_chain "API_URL") with true;
         change (declared useSeriesDetails.catch_chain "id") with true;
         unfold ret);
    cbv beta iota;
    rewrite (error_message_eval err r d m _ st Hr Hd Hm); reflexivity.
Qed.

Lemma failed_request_sets_error_witness :
  let err := JObj [("name", JStr "AxiosError");
                   ("response", JObj [("status", JNum 500);
                                      ("data", JObj [("message", JStr "server error")])])] in
  useCategories.fetchCategories_settled (Rejected err) useCategories.initial
  = (Normal tt,
     {| useCategories.categories := JNull; useCategories.loading := false;
        useCategories.error := JStr "server error" |}).
Proof.
  intros err.
  destruct (failed_request_sets_error err
              (JObj [("status", JNum 500);
                     ("data", JObj [("message", JStr "server error")])])
              (JObj [("message", JStr "server error")]) (JStr "server error"))
    as (_ & Hc & _); [reflexivity | reflexivity | reflexivity |].
  exact (Hc useCategories.initial).
Defined.

(** X13.  A response replaces the data and clears the error.  In
    [useMovie], [useRelatedMovies], [useCategories], [useStats] and
    [useSeriesDetails] a resolved request stores [response.data], sets the
    error to null (whatever it was, so a success after a failure removes the
    message) and clears loading; [useSearchSuggestions] stores
    [response.data] and clears loading. *)
Theorem successful_request_clears_error (response d : JsVal) :
  Get response "data" = Normal d ->
  (forall st,
      useMovie.fetchMovie_settled (Resolved response) st
      = (Normal tt, useMovie.setLoading false (useMovie.setError JNull (useMovie.setMovie d st))))
  /\ (forall st,
        useRelatedMovies.fetchRelated_settled (Resolved response) st
        = (Normal tt,
           useRelatedMovies.setLoading false
             (useRelatedMovies.setError JNull (useRelatedMovies.setMovies d st))))
  /\ (forall st,
        useCategories.fetchCategories_settled (Resolved response) st
        = (Normal tt,
           useCategories.setLoading false
             (useCategories.setError JNull (useCategories.setCategories d st))))
  /\ (forall st,
        useStats.fetchStats_settled (Resolved response) st
        = (Normal tt,
           useStats.setLoading false (useStats.setError JNull (useStats.setStats d st))))
  /\ (forall st,
        useSeriesDetails.fetchSeries_settled (Resolved response) st
        = (Normal tt,
           useSeriesDetails.setLoading false
             (useSeriesDetails.setError JNull (useSeriesDetails.setSeries d st))))
  /\ (forall st,
        useSearchSuggestions.fetchSuggestions_settled (Resolved response) st
        = (Normal tt,
           useSearchSuggestions.setLoading false
             (useSearchSuggestions.setSuggestions d st))).
Proof.
  intros Hd. repeat split; intros st;
    unfold useMovie.fetchMovie_settled, useRelatedMovies.fetchRelated_settled,
      useCategories.fetchCategories_settled, useStats.fetchStats_settled,
      useSeriesDetails.fetchSeries_settled, useSearchSuggestions.fetchSuggestions_settled;
    rewrite try_finally_modify;
    unfold try_catch, mbind, Js_bind, bind, await, ret, lift, modify;
    rewrite Hd; reflexivity.
Qed.

Lemma successful_request_clears_error_witness :
  let failed := {| useCategories.categories := JNull; useCategories.loading := false;
                   useCategories.error := JStr "server error" |} in
  useCategories.fetchCategories_settled
    (Resolved (JObj [("data", JArr [JStr "Drama"])])) failed
  = (Normal tt,
     {| useCategories.categories := JArr [JStr "Drama"]; useCategories.loading := false;
        useCategories.error := JNull |}).
Proof.
  intros failed.
  destruct (successful_request_clears_error (JObj [("data", JArr [JStr "Drama"])])
              (JArr [JStr "Drama"])) as (_ & _ & Hc & _); [reflexivity|].
  exact (Hc failed).
Defined.

(** X14.  A falsy id (undefined, null, the empty string, 0) starts no
    request in [useMovie], [useRelatedMovies] and [useSeriesDetails]: the
    effect changes nothing, and a fresh instance stays with loading true. *)
Theorem missing_id_never_fetches (id : JsVal) :
  ToBoolean id = false ->
  (forall w, useMovie.effect id w = w)
  /\ (forall w, useRelatedMovies.effect id w = w)
  /\ (forall w, useSeriesDetails.effect id w = w)
  /\ (forall h, useMovie.loading (hook (useMovie.effect id
                   {| hook := useMovie.initial; host := h |})) = true)
  /\ (forall h, useRelatedMovies.loading (hook (useRelatedMovies.effect id
                   {| hook := useRelatedMovies.initial; host := h |})) = true)
  /\ (forall h, useSeriesDetails.loading (hook (useSeriesDetails.effect id
                   {| hook := useSeriesDetails.initial; host := h |})) = true).
Proof.
  intros Hid. unfold useMovie.effect, useRelatedMovies.effect, useSeriesDetails.effect.
  rewrite Hid. repeat split.
Qed.

Lemma missing_id_never_fetches_witness :
  useMovie.effect (JNum 0) {| hook := useMovie.initial; host := fresh_host |}
  = {| hook := useMovie.initial; host := fresh_host |}.
Proof. apply (proj1 (missing_id_never_fetches (JNum 0) eq_refl)). Defined.


(** X19.  The list hooks do not validate the response.  For any response
    whose data is an object, [fetchMovies] and [fetchSeries] complete
    normally with error null: the list becomes [data.movies] (resp.
    [data.series]) and the pagination [{total, page, pages}] of the data,
    each undefined when the data lacks it. *)
Theorem list_response_is_not_validated
    (response : JsVal) (props : list (string * JsVal)) :
  Get response "data" = Normal (JObj props) ->
  let pagination := JObj [("total", prop props "total"); ("page", prop props "page");
                          ("pages", prop props "pages")] in
  (forall st,
      useMovies.fetchMovies_settled (Normal response) st
      = (Normal tt,
         useMovies.set_abortControllerRef None
           (useMovies.setLoading false
              (useMovies.setIsDataLoaded true
                 (useMovies.setError JNull
                    (useMovies.setPagination pagination
                       (useMovies.setMovies (prop props "movies") st)))))))
  /\ (forall st,
        useSeries.fetchSeries_settled (Resolved response) st
        = (Normal tt,
           useSeries.setLoading false
             (useSeries.setError JNull
                (useSeries.setPagination pagination
                   (useSeries.setSeries (prop props "series") st))))).
Proof.
  intros Hdata pagination. split; intros st.
  - unfold useMovies.fetchMovies_settled, try_finally, try_catch,
      mbind, Js_bind, bind, lift, modify.
    rewrite Hdata. reflexivity.
  - unfold useSeries.fetchSeries_settled. rewrite try_finally_modify.
    unfold try_catch, mbind, Js_bind, bind, await, ret, lift, modify.
    rewrite Hdata. reflexivity.
Qed.

Lemma list_response_is_not_validated_witness :
  let response := JObj [("data", JObj [("movies", JArr [JStr "Heat"]); ("total", JNum 1)])] in
  let st := snd (useSeries.fetchSeries_settled (Resolved response) useSeries.initial) in
  useSeries.series st = JUndefined
  /\ useSeries.error st = JNull
  /\ useSeries.pagination st
     = JObj [("total", JNum 1); ("page", JUndefined); ("pages", JUndefined)].
Proof.
  intros response st.
  destruct (list_response_is_not_validated response
              [("movies", JArr [JStr "Heat"]); ("total", JNum 1)]) as (_ & Hs);
    [reflexivity|].
  subst st. rewrite Hs. repeat split.
Defined.

(** ** [useSearchSuggestions] and its timer *)

Section Suggestions.

Import useSearchSuggestions.

Implicit Types (w : World State) (h : Host) (query : option string).

Lemma clear_fresh_timer (l : list Timer) (n : nat) (t : Timer) :
  Forall (fun x => tid x < n) l -> tid t = n ->
  filter (fun x => tid x ≠ n) (l ++ [t])%list = l.
Proof.
  intros Hfresh Ht.
  rewrite filter_app, filter_cons_False, filter_nil, app_nil_r by (intros Hne; by apply Hne).
  induction l as [|x l IH]; [done|].
  apply Forall_cons in Hfresh as [Hx Hl].
  rewrite filter_cons_True by lia. by rewrite IH.
Qed.


Lemma find_no_timer (l : list Timer) (n id : nat) :
  Forall (fun x => tid x < n) l -> n <= id ->
  List.find (fun x => Nat.eqb (tid x) id) l = None.
Proof.
  intros Hfresh Hid. induction l as [|x l IH]; [done|]. cbn.
  apply Forall_cons in Hfresh as [Hx Hl].
  destruct (Nat.eqb_spec (tid x) id); [lia|]. by apply IH.
Qed.

End Suggestions.

(** X15.  A query that is replaced before its timer fires never reaches
    the network: the cleanup of the effect removes the timer the effect set,
    the timers, the requests and the hook are as before the effect, and the
    timer does nothing however much time passes. *)
Theorem useSearchSuggestions_superseded_query_is_dropped
    (query : option string) (w : World useSearchSuggestions.State) (ms : Z) :
  timers_fresh (host w) ->
  let t := fst (useSearchSuggestions.effect query w) in
  let w1 := useSearchSuggestions.cleanup t (snd (useSearchSuggestions.effect query w)) in
  let w2 := on_host (elapse ms) w1 in
  timers (host w1) = timers (host w)
  /\ network (host w1) = network (host w)
  /\ hook w1 = hook w
  /\ useSearchSuggestions.timeout t w2 = w2.
Proof.
  intros Hfresh t w1 w2. subst t w1 w2.
  unfold useSearchSuggestions.effect, useSearchSuggestions.cleanup, setTimeout.
  cbn [fst snd on_host host hook clearTimeout set_timers timers timer_ids network].
  rewrite (clear_fresh_timer (timers (host w)) (timer_ids (host w))) by done.
  repeat split. unfold useSearchSuggestions.timeout.
  cbn [on_host host hook elapse clearTimeout set_timers timers timer_ids].
  rewrite (clear_fresh_timer (timers (host w)) (timer_ids (host w))) by done.
  by rewrite (find_no_timer _ (timer_ids (host w))).
Qed.

Lemma useSearchSuggestions_superseded_query_is_dropped_witness :
  let w := {| hook := useSearchSuggestions.initial; host := fresh_host |} in
  let t := fst (useSearchSuggestions.effect (Some "he") w) in
  let w1 := useSearchSuggestions.cleanup t (snd (useSearchSuggestions.effect (Some "he") w)) in
  useSearchSuggestions.timeout t (on_host (elapse 300) w1) = on_host (elapse 300) w1.
Proof.
  intros w t w1.
  apply (useSearchSuggestions_superseded_query_is_dropped (Some "he") w 300).
  apply Forall_nil_2.
Defined.



(** ** The mutation functions *)

(** X17.  Errors of the mutation functions.  [incrementDownloadCount]
    completes normally whatever the outcome of its call and sends no header;
    [createMovie], [updateMovie], [deleteMovie] and [toggleMovieStatus] throw
    what a failed call rejected with, return [response.data] otherwise, and
    send the admin key they were given as [x-admin-key]. *)
Theorem mutations_error_policy :
  (forall (St : Type) (o : Outcome) (s : St),
      mutations.incrementDownloadCount_settled o s = (Normal JUndefined, s))
  /\ (forall (St : Type) (err : JsVal) (s : St),
        mutations.returns_data (Rejected err) s = (Throw err, s))
  /\ (forall (St : Type) (response : JsVal) (s : St),
        mutations.returns_data (Resolved response) s = (Get response "data", s))
  /\ (forall movieId, mutations.headers (mutations.incrementDownloadCount movieId) = [])
  /\ (forall id action movieData adminKey,
        let sent c := own_property (mutations.headers c) "x-admin-key" in
        sent (mutations.createMovie movieData adminKey) = Some adminKey
        /\ sent (mutations.updateMovie id movieData adminKey) = Some adminKey
        /\ sent (mutations.deleteMovie id adminKey) = Some adminKey
        /\ sent (mutations.toggleMovieStatus id action adminKey) = Some adminKey).
Proof.
  split; [by intros St [response|err] s|]. split; [done|]. split; [|done].
  intros St response s. unfold mutations.returns_data, mbind, Js_bind, bind, await, ret, lift.
  by destruct (Get response "data").
Qed.

(** ** [MovieSkeleton] *)

(** X18.  [MovieSkeleton] with a [count] below 2^32 (8 when [count] is
    absent) renders [count] cards, none when [count] is negative; the card
    at position [i] is [card i], so the keys are 0, 1, ... and no key
    repeats.  With a [count] of 2^32 or more it throws a RangeError. *)
Theorem MovieSkeleton_cards (count : option Z) :
  let n := default 8%Z count in
  ((n < 2 ^ 32)%Z ->
   exists root,
     MovieSkeleton.MovieSkeleton count = Normal root
     /\ MovieSkeleton.className_of root = "grid grid-responsive"
     /\ let cards := MovieSkeleton.children_of root in
        length cards = Z.to_nat n
        /\ map MovieSkeleton.key_of cards = map Some (seq 0 (length cards))
        /\ NoDup (map MovieSkeleton.key_of cards)
        /\ (forall i, i < length cards -> cards !! i = Some (MovieSkeleton.card i)))
  /\ ((2 ^ 32 <= n)%Z ->
      MovieSkeleton.MovieSkeleton count = Throw (RangeError "Invalid array length")).
Proof.
  cbn zeta. unfold MovieSkeleton.MovieSkeleton.
  set (n := default 8%Z count). split; intros Hn.
  - destruct (Z.leb_spec (2 ^ 32) n) as [Hbig|_]; [lia|].
    eexists. split; [reflexivity|]. split; [reflexivity|].
    cbn [MovieSkeleton.children_of].
    rewrite length_map, length_seq. split; [done|]. split.
    + rewrite map_map. done.
    + split.
      * rewrite map_map. cbn [MovieSkeleton.card MovieSkeleton.key_of].
        apply (NoDup_fmap_2 Some). apply NoDup_seq.
      * intros i Hi.
        change (map MovieSkeleton.card (seq 0 (Z.to_nat n)))
          with (MovieSkeleton.card <$> seq 0 (Z.to_nat n)).
        rewrite list_lookup_fmap, lookup_seq_lt by done. done.
  - destruct (Z.leb_spec (2 ^ 32) n) as [_|Hsmall]; [done|lia].
Qed.

Lemma MovieSkeleton_cards_witness :
  (exists root,
      MovieSkeleton.MovieSkeleton (Some 3%Z) = Normal root
      /\ map MovieSkeleton.key_of (MovieSkeleton.children_of root) = [Some 0; Some 1; Some 2])
  /\ MovieSkeleton.MovieSkeleton (Some (2 ^ 32)%Z) = Throw (RangeError "Invalid array length").
Proof.
  destruct (MovieSkeleton_cards (Some 3%Z)) as (Hsmall & _).
  destruct (MovieSkeleton_cards (Some (2 ^ 32)%Z)) as (_ & Hbig).
  split.
  - destruct Hsmall as (root & Hroot & _ & _ & Hkeys & _); [vm_compute; reflexivity|].
    exists root. split; [exact Hroot|]. rewrite Hkeys.
    injection Hroot as <-. reflexivity.
  - apply Hbig. vm_compute. discriminate.
Defined.
